(** * A steganographic payload pipeline

    Shallow embedding of the core of the steganography application:
    the LSB embedding algorithm ([algorithms/lsb.py]), the capacity
    estimates of the DCT and DWT algorithms, the payload framer and the
    orchestration of [core/steganography.py], the encryption manager of
    [core/encryption.py] and the fidelity metrics of
    [analysis/quality_metrics.py].

    Conventions of the embedding.
    - Python integers are [Z]; [//] is [Z.div] (both round towards minus
      infinity for a positive divisor) and [&], [|] are [Z.land], [Z.lor].
    - A [bytes] object is a [list Z] whose elements satisfy [is_byte];
      a [str] object is the list of its code points.
    - numpy arrays of dtype uint8 live in an explicit store of buffers;
      an array value is a view: a buffer location and a shape.
    - An exception is a value of type [exn]; a computation that may
      raise returns an [outcome]. *)

From stdpp Require Import base list strings pretty numbers.
From Stdlib Require Import ZArith Lia QArith.

#[local] Open Scope Z_scope.

(** ** Python values and exceptions *)

Inductive exn_class :=
| ValueError
| UnicodeDecodeError
| UnicodeEncodeError
| TypeError
| AttributeError
| IndexError
| ZlibError
| InvalidToken
| SystemError.

Record exn := Exn { exn_cls : exn_class; exn_msg : string }.

(** [except ValueError] also catches the two Unicode errors, which
    derive from [ValueError] in Python's exception hierarchy. *)
Definition isinstance_ValueError (e : exn) : bool :=
  match exn_cls e with
  | ValueError | UnicodeDecodeError | UnicodeEncodeError => true
  | _ => false
  end.

Inductive outcome (A : Type) :=
| Ret (a : A)
| Raise (e : exn).
Arguments Ret {A} a.
Arguments Raise {A} e.

#[export] Instance outcome_ret : MRet outcome := λ A a, Ret a.

#[export] Instance outcome_bind : MBind outcome := λ A B k o,
  match o with
  | Ret a => k a
  | Raise e => Raise e
  end.

Abbreviation bytes := (list Z) (only parsing).
Abbreviation pystr := (list Z) (only parsing).

Definition is_byte (b : Z) : Prop := 0 ≤ b < 256.

(** A value that is either a [str] or a [bytes] object: the secret
    that [embed] accepts, the data that an [extract] returns. *)
Inductive str_or_bytes :=
| Str (s : pystr)
| Bytes (b : bytes).

(** ** Bits

    [format(byte, '08b')] writes the eight bits of a byte, most
    significant first; [int(s, 2)] reads a bit string back. *)

Definition format_08b (b : Z) : list bool :=
  [Z.testbit b 7; Z.testbit b 6; Z.testbit b 5; Z.testbit b 4;
   Z.testbit b 3; Z.testbit b 2; Z.testbit b 1; Z.testbit b 0].

Definition int_base2 (bits : list bool) : Z :=
  foldl (λ acc (bit : bool), 2 * acc + Z.b2z bit) 0 bits.

Definition to_binary (data : bytes) : list bool :=
  mbind format_08b data.

(** ** UTF-8

    [str.encode('utf-8')] and [bytes.decode('utf-8', errors)] of the
    Python runtime.  Encoding refuses lone surrogates.  The decoder scans
    the input left to right; an undecodable stretch is reported as
    [None], after which the scan resumes behind the stretch (an invalid
    start byte is one byte long, a sequence broken by a bad continuation
    byte ends before that byte, a sequence cut by the end of the input
    runs to the end). *)

Definition utf8_encode_char (c : Z) : outcome bytes :=
  if c <? 0x80 then Ret [c]
  else if c <? 0x800 then Ret [0xC0 + c / 64; 0x80 + c mod 64]
  else if (0xD800 <=? c) && (c <=? 0xDFFF) then
    Raise (Exn UnicodeEncodeError "surrogates not allowed")
  else if c <? 0x10000 then
    Ret [0xE0 + c / 4096; 0x80 + (c / 64) mod 64; 0x80 + c mod 64]
  else
    Ret [0xF0 + c / 262144; 0x80 + (c / 4096) mod 64;
         0x80 + (c / 64) mod 64; 0x80 + c mod 64].

Fixpoint utf8_encode (s : pystr) : outcome bytes :=
  match s with
  | [] => Ret []
  | c :: s' =>
      b ← utf8_encode_char c;
      bs ← utf8_encode s';
      Ret (b ++ bs)
  end.

(** [if isinstance(secret_data, str): secret_data =
    secret_data.encode('utf-8')] *)
Definition encode_if_str (secret_data : str_or_bytes) : outcome bytes :=
  match secret_data with
  | Str s => utf8_encode s
  | Bytes b => Ret b
  end.

Definition is_continuation (b : Z) : bool := (0x80 <=? b) && (b <? 0xC0).

Fixpoint utf8_scan (s : bytes) : list (option Z) :=
  match s with
  | [] => []
  | ch :: s1 =>
    if ch <? 0x80 then Some ch :: utf8_scan s1
    else if ch <? 0xC2 then None :: utf8_scan s1
    else if ch <? 0xE0 then
      match s1 with
      | [] => [None]
      | ch2 :: s2 =>
        if is_continuation ch2
        then Some ((ch - 0xC0) * 64 + (ch2 - 0x80)) :: utf8_scan s2
        else None :: utf8_scan s1
      end
    else if ch <? 0xF0 then
      match s1 with
      | [] => [None]
      | ch2 :: s2 =>
        if negb (is_continuation ch2)
           || (if ch2 <? 0xA0 then ch =? 0xE0 else ch =? 0xED)
        then None :: utf8_scan s1
        else
          match s2 with
          | [] => [None]
          | ch3 :: s3 =>
            if is_continuation ch3
            then Some ((ch - 0xE0) * 4096 + (ch2 - 0x80) * 64 + (ch3 - 0x80))
                 :: utf8_scan s3
            else None :: utf8_scan s2
          end
      end
    else if ch <? 0xF5 then
      match s1 with
      | [] => [None]
      | ch2 :: s2 =>
        if negb (is_continuation ch2)
           || (if ch2 <? 0x90 then ch =? 0xF0 else ch =? 0xF4)
        then None :: utf8_scan s1
        else
          match s2 with
          | [] => [None]
          | ch3 :: s3 =>
            if is_continuation ch3 then
              match s3 with
              | [] => [None]
              | ch4 :: s4 =>
                if is_continuation ch4
                then Some ((ch - 0xF0) * 262144 + (ch2 - 0x80) * 4096
                           + (ch3 - 0x80) * 64 + (ch4 - 0x80))
                     :: utf8_scan s4
                else None :: utf8_scan s3
              end
            else None :: utf8_scan s2
          end
      end
    else None :: utf8_scan s1
  end.

(** [data.decode('utf-8', errors='ignore')]: undecodable stretches are
    dropped. *)
Definition decode_ignore (data : bytes) : pystr :=
  omap id (utf8_scan data).

(** [data.decode('utf-8')]: the first undecodable stretch raises. *)
Definition decode_strict (data : bytes) : outcome pystr :=
  if forallb (λ o : option Z, bool_decide (is_Some o)) (utf8_scan data)
  then Ret (omap id (utf8_scan data))
  else Raise (Exn UnicodeDecodeError "'utf-8' codec can't decode bytes").

(** ** The world: array buffers and the entropy source

    A buffer holds the samples of a uint8 array in row-major order.
    [copy] and [flatten] allocate a fresh buffer; [reshape] of a
    contiguous array is a view on the same buffer. [os.urandom] reads
    the next bytes of a tape. *)

Abbreviation loc := nat (only parsing).

Record ndarray := NdArray { base : loc; shape : list Z }.

Record world := World {
  buffers : list (list Z);
  tape : nat → Z;
  tape_pos : nat
}.

Definition M (A : Type) : Type := world → outcome A * world.

#[export] Instance M_ret : MRet M := λ A a w, (Ret a, w).

#[export] Instance M_bind : MBind M := λ A B k m w,
  match m w with
  | (Ret a, w') => k a w'
  | (Raise e, w') => (Raise e, w')
  end.

Definition raise {A} (e : exn) : M A := λ w, (Raise e, w).

Definition lift {A} (o : outcome A) : M A := λ w, (o, w).

Definition set_buffers (w : world) (bs : list (list Z)) : world :=
  World bs (tape w) (tape_pos w).

Definition alloc (buf : list Z) : M loc := λ w,
  (Ret (length (buffers w)), set_buffers w (buffers w ++ [buf])).

Definition load (l : loc) : M (list Z) := λ w,
  match buffers w !! l with
  | Some buf => (Ret buf, w)
  | None => (Raise (Exn SystemError "no such buffer"), w)
  end.

(** [os.urandom(n)] *)
Definition os_urandom (n : nat) : M bytes := λ w,
  (Ret ((λ k, tape w k mod 256) <$> seq (tape_pos w) n),
   World (buffers w) (tape w) (tape_pos w + n)).

Definition prod_shape (shp : list Z) : Z := foldr Z.mul 1 shp.

Definition np_copy (a : ndarray) : M ndarray :=
  buf ← load (base a);
  l ← alloc buf;
  mret (NdArray l (shape a)).

Definition flatten (a : ndarray) : M ndarray :=
  buf ← load (base a);
  l ← alloc buf;
  mret (NdArray l [Z.of_nat (length buf)]).

Definition reshape (a : ndarray) (shp : list Z) : M ndarray :=
  buf ← load (base a);
  if decide (prod_shape shp = Z.of_nat (length buf))
  then mret (NdArray (base a) shp)
  else raise (Exn ValueError "cannot reshape array into the given shape").

(** [len(a)] of a one-dimensional array. *)
Definition len (a : ndarray) : M nat :=
  buf ← load (base a);
  mret (length buf).

(** [a[i]] and [a[i] = v] on a one-dimensional uint8 array, for an
    index that is in range. *)
Definition getitem (a : ndarray) (i : nat) : M Z :=
  buf ← load (base a);
  match buf !! i with
  | Some x => mret x
  | None => raise (Exn IndexError "index is out of bounds")
  end.

Definition setitem (a : ndarray) (i : nat) (v : Z) : M unit := λ w,
  (Ret (),
   set_buffers w (alter (λ buf, <[i := v mod 256]> buf) (base a) (buffers w))).

(** [shape[k]] of the shape tuple. *)
Definition shape_at (shp : list Z) (k : nat) : outcome Z :=
  match shp !! k with
  | Some d => Ret d
  | None => Raise (Exn IndexError "tuple index out of range")
  end.

(** ** The embedding algorithms *)

(** [height, width, channels = image.shape], or [height, width =
    image.shape] with one channel when the array is not three-dimensional;
    unpacking a tuple of the wrong length raises [ValueError]. *)
Definition unpack_shape (shp : list Z) : outcome (Z * Z * Z) :=
  match shp with
  | [height; width; channels] => Ret (height, width, channels)
  | [height; width] => Ret (height, width, 1)
  | _ :: _ :: _ =>
      Raise (Exn ValueError "too many values to unpack (expected 2)")
  | _ =>
      Raise (Exn ValueError
        ("not enough values to unpack (expected 2, got "
           +:+ pretty (length shp) +:+ ")"))
  end.

(** The methods of the LSB class also take a PIL image, which they turn
    into an array with [np.array] before anything else; the model starts
    from the array, of dtype uint8. *)
Module LSBSteganography.

Definition delimiter : bytes := [0; 0; 0; 0].

Definition default_max_length : Z := 10000.

Fixpoint embed_loop (flat_image : ndarray) (i : nat)
    (binary_data : list bool) : M unit :=
  match binary_data with
  | [] => mret ()
  | bit :: rest =>
      n ← len flat_image;
      (if decide (i < n)%nat then
         x ← getitem flat_image i;
         setitem flat_image i (Z.lor (Z.land x 0xFE) (Z.b2z bit))
       else mret ());;
      embed_loop flat_image (S i) rest
  end.

Definition embed (image : ndarray) (secret_data : str_or_bytes) : M ndarray :=
  image_array ← np_copy image;
  secret_data ← lift (encode_if_str secret_data);
  let secret_data := secret_data ++ delimiter in
  let binary_data := to_binary secret_data in
  s0 ← lift (shape_at (shape image_array) 0);
  s1 ← lift (shape_at (shape image_array) 1);
  let total_pixels := s0 * s1 in
  total_capacity ←
    (if decide (length (shape image_array) = 3%nat) then
       s2 ← lift (shape_at (shape image_array) 2);
       mret (total_pixels * s2)
     else mret total_pixels);
  if decide (Z.of_nat (length binary_data) > total_capacity) then
    raise (Exn ValueError
      ("Image too small to hold data. Need "
         +:+ pretty (Z.of_nat (length binary_data))
         +:+ " bits, have " +:+ pretty total_capacity))
  else
    flat_image ← flatten image_array;
    embed_loop flat_image 0 binary_data;;
    reshape flat_image (shape image_array).

(** [range(0, n, 8)] *)
Definition range_step8 (n : nat) : list nat :=
  (λ k, 8 * k)%nat <$> seq 0 ((n + 7) / 8).

Fixpoint read_bits (flat_image : ndarray) (range : list nat)
    : M (list bool) :=
  match range with
  | [] => mret []
  | i :: rest =>
      x ← getitem flat_image i;
      binary_data ← read_bits flat_image rest;
      mret (bool_decide (Z.land x 1 = 1) :: binary_data)
  end.

(** [len(extracted_bytes) >= 4 and extracted_bytes[-4:] == 0 0 0 0] *)
Definition ends_with_delimiter (extracted_bytes : bytes) : bool :=
  bool_decide (4 ≤ length extracted_bytes)%nat
  && bool_decide (drop (length extracted_bytes - 4) extracted_bytes
                  = delimiter).

(** The loop that groups bits into bytes; it stops, and strips the
    delimiter, as soon as the bytes read so far end with it. *)
Fixpoint collect_bytes (binary_data : list bool) (range : list nat)
    (extracted_bytes : bytes) : bytes :=
  match range with
  | [] => extracted_bytes
  | i :: rest =>
      if decide (i + 8 ≤ length binary_data)%nat then
        let byte_str := take 8 (drop i binary_data) in
        let byte_val := int_base2 byte_str in
        let extracted_bytes := extracted_bytes ++ [byte_val] in
        if ends_with_delimiter extracted_bytes then
          take (length extracted_bytes - 4) extracted_bytes
        else collect_bytes binary_data rest extracted_bytes
      else collect_bytes binary_data rest extracted_bytes
  end.

(** The bytes [extract] has gathered when it reaches its final
    conversion to text. *)
Definition extract_bytes (image : ndarray) (max_length : Z) : M bytes :=
  image_array ← np_copy image;
  flat_image ← flatten image_array;
  n ← len flat_image;
  binary_data ←
    read_bits flat_image
      (seq 0 (Z.to_nat (Z.min (Z.of_nat n) (max_length * 8))));
  mret (collect_bytes binary_data
          (range_step8 (length binary_data)) []).

(** [extract]: with [errors='ignore'] the decoding cannot raise, so the
    [except UnicodeDecodeError] clause of the source is never taken. *)
Definition extract (image : ndarray) (max_length : Z) : M pystr :=
  extracted_bytes ← extract_bytes image max_length;
  mret (decode_ignore extracted_bytes).

(** [get_capacity] on a numpy array. *)
Definition get_capacity (image : ndarray) : outcome Z :=
  '(height, width, channels) ← unpack_shape (shape image);
  let total_bits := height * width * channels in
  let usable_bits := total_bits - 32 in
  Ret (Z.max 0 (usable_bits / 8)).

End LSBSteganography.

Module DCTSteganography.

Definition get_capacity (image : ndarray) : outcome Z :=
  '(height, width, channels) ← unpack_shape (shape image);
  let blocks_h := height / 8 in
  let blocks_w := width / 8 in
  let total_blocks := blocks_h * blocks_w * channels in
  let usable_bits := total_blocks * 1 in
  Ret (Z.max 0 (usable_bits / 8)).

(** [format(n, '08b')] of a non-negative integer: its binary digits,
    most significant first, padded with zeros to a width of eight; a
    number above 255 takes more than eight digits. *)
Definition format_08b_int (n : Z) : list bool :=
  (λ k, Z.testbit n (Z.of_nat k))
    <$> reverse (seq 0 (Z.to_nat (Z.max 8 (Z.log2 n + 1)))).

(** [_string_to_bits] on a [str]: [ord] gives the code point of each
    character. (On a non-empty [bytes] object [ord] raises, see
    [SteganographyEngine._string_to_bits].) *)
Definition _string_to_bits (data : pystr) : list bool :=
  c ← data; format_08b_int c.


End DCTSteganography.

Module DWTSteganography.

Definition get_capacity (image : ndarray) : outcome Z :=
  '(height, width, channels) ← unpack_shape (shape image);
  let detail_size := (height / 2) * (width / 2) in
  let usable_bits := detail_size * channels in
  Ret (Z.max 0 (usable_bits / 8)).

End DWTSteganography.


(** ** Third-party libraries

    The primitives of the packages the application imports
    ([cryptography], [zlib], [scipy], [pywt], [skimage]) are an interface;
    what the application does with them is modelled below. *)

(** Floating-point results: a finite value, infinity, NaN, and the
    value of [20 * log10(255.0 / sqrt(mse))] for a non-zero [mse]. *)
Inductive pyfloat :=
| float_Q (q : Q)
| float_inf
| float_nan
| float_psnr (mse : Q).

Record quality_report := QualityReport {
  psnr : pyfloat;
  ssim : pyfloat;
  mse : option Q;
  mae : option Q
}.

Class Libraries := {
  (** [PBKDF2HMAC(SHA256, length=32, salt, iterations=100000).derive] *)
  PBKDF2HMAC_derive : bytes → bytes → bytes;
  (** [encryptor.update(data) + encryptor.finalize()] of
      [Cipher(AES(key), CBC(iv))], and the decryptor *)
  AES_CBC_encrypt : bytes → bytes → bytes → outcome bytes;
  AES_CBC_decrypt : bytes → bytes → bytes → outcome bytes;
  (** the ChaCha20 key stream applied to the data *)
  ChaCha20_xor : bytes → bytes → bytes → bytes;
  urlsafe_b64encode : bytes → bytes;
  (** [Fernet(key)._encrypt_from_parts(data, current_time, iv)] and
      [Fernet(key).decrypt(token)] *)
  time_now : Z;
  Fernet_encrypt_from_parts : bytes → bytes → Z → bytes → outcome bytes;
  Fernet_decrypt : bytes → bytes → outcome bytes;
  zlib_compress : bytes → Z → outcome bytes;
  zlib_decompress : bytes → outcome bytes;
  (** [int(total_bits * 0.7)] in double precision *)
  int_mul_0_7 : Z → Z;
  (** results of the transform-domain algorithms, which are arrays of
      floating-point samples: [idct(idct(dct(dct(image))))] of [scipy],
      [dwt2] and [idwt2] of [pywt], the embedding loop of the adaptive
      algorithm and the [extract] methods; each takes the shape and the
      samples of the image *)
  float_image : Type;
  wavelet_coefficients : Type;
  scipy_dct_idct : list Z → list Z → outcome float_image;
  pywt_dwt2 : list Z → list Z → outcome wavelet_coefficients;
  pywt_idwt2 : wavelet_coefficients → outcome float_image;
  adaptive_embed_data : list Z → list Z → list bool → outcome float_image;
  transform_extract : string → list Z → list Z → outcome pystr;
  (** [skimage]'s PSNR, when the package can be imported *)
  psnr_func : option (list Z → list Z → outcome pyfloat);
  (** the SSIM figure, from [skimage] or the module's own formula *)
  ssim_value : list Z → list Z → list Z → outcome pyfloat;
  (** the analysis of a floating-point stego image *)
  analyze_float : list Z → list Z → float_image → outcome quality_report
}.

(** What the application relies on. *)
Class LibrariesLaws `{Libraries} := {
  PBKDF2HMAC_length pw salt : length (PBKDF2HMAC_derive pw salt) = 32%nat;
  AES_CBC_round_trip key iv data :
    length key = 32%nat → length iv = 16%nat →
    (length data mod 16 = 0)%nat →
    ∃ ct, AES_CBC_encrypt key iv data = Ret ct
          ∧ AES_CBC_decrypt key iv ct = Ret data;
  Fernet_round_trip key data now iv :
    length key = 32%nat → length iv = 16%nat →
    ∃ token, Fernet_encrypt_from_parts (urlsafe_b64encode key) data now iv
             = Ret token
             ∧ Fernet_decrypt (urlsafe_b64encode key) token = Ret data
}.

(** [zlib.decompress] undoes [zlib.compress] at the compression levels
    1 to 9. *)
Class ZlibLaws `{Libraries} := {
  zlib_round_trip data level :
    0 < level ≤ 9 →
    ∃ compressed, zlib_compress data level = Ret compressed
                  ∧ zlib_decompress compressed = Ret data
}.

(** ** Encryption manager *)

Module EncryptionManager.
Section with_libraries.
Context `{Libraries}.

Definition _derive_key (password : pystr) (salt : bytes) : outcome bytes :=
  pw ← utf8_encode password;
  Ret (PBKDF2HMAC_derive pw salt).

Definition _pad_data (data : bytes) : bytes :=
  let padding_length := (16 - length data mod 16)%nat in
  data ++ replicate padding_length (Z.of_nat padding_length).

(** [padded_data[-1]] raises on an empty sequence; [padded_data[:-k]]
    is empty for [k = 0] and for [k] beyond the length. *)
Definition _unpad_data (padded_data : bytes) : outcome bytes :=
  match padded_data !! (length padded_data - 1)%nat with
  | None => Raise (Exn IndexError "index out of range")
  | Some padding_length =>
      if decide (padding_length = 0) then Ret []
      else Ret (take (length padded_data - Z.to_nat padding_length)
                  padded_data)
  end.

Definition _encrypt_aes (data : bytes) (password : pystr) : M bytes :=
  salt ← os_urandom 16;
  iv ← os_urandom 16;
  key ← lift (_derive_key password salt);
  let padded_data := _pad_data data in
  encrypted_data ← lift (AES_CBC_encrypt key iv padded_data);
  mret (salt ++ iv ++ encrypted_data).

Definition _decrypt_aes (encrypted_data : bytes) (password : pystr)
    : outcome bytes :=
  let salt := take 16 encrypted_data in
  let iv := take 16 (drop 16 encrypted_data) in
  let ciphertext := drop 32 encrypted_data in
  key ← _derive_key password salt;
  padded_data ← AES_CBC_decrypt key iv ciphertext;
  _unpad_data padded_data.

(** [algorithms.ChaCha20(key, nonce)], as the [cryptography] package
    documents and implements it: the key must be 256 bits long, and the
    nonce, which is the 4-byte block counter followed by the 12-byte
    nonce proper, 128 bits; the constructor raises [ValueError]
    otherwise. *)
Definition ChaCha20 (key nonce : bytes) : outcome (bytes * bytes) :=
  if decide (length key = 32%nat) then
    if decide (length nonce = 16%nat) then Ret (key, nonce)
    else Raise (Exn ValueError "nonce must be 128-bits (16 bytes)")
  else
    Raise (Exn ValueError
      ("Invalid key size (" +:+ pretty (8 * length key)%nat
         +:+ ") for ChaCha20.")).

Definition _encrypt_chacha20 (data : bytes) (password : pystr) : M bytes :=
  salt ← os_urandom 16;
  nonce ← os_urandom 12;
  key ← lift (_derive_key password salt);
  '(k, n) ← lift (ChaCha20 key nonce);
  let encrypted_data := ChaCha20_xor k n data in
  mret (salt ++ nonce ++ encrypted_data).

Definition _decrypt_chacha20 (encrypted_data : bytes) (password : pystr)
    : outcome bytes :=
  let salt := take 16 encrypted_data in
  let nonce := take 12 (drop 16 encrypted_data) in
  let ciphertext := drop 28 encrypted_data in
  key ← _derive_key password salt;
  '(k, n) ← ChaCha20 key nonce;
  Ret (ChaCha20_xor k n ciphertext).

Definition _encrypt_fernet (data : bytes) (password : pystr) : M bytes :=
  salt ← os_urandom 16;
  key ← lift (_derive_key password salt);
  let fernet_key := urlsafe_b64encode key in
  iv ← os_urandom 16;
  encrypted_data ← lift (Fernet_encrypt_from_parts fernet_key data time_now iv);
  mret (salt ++ encrypted_data).

Definition _decrypt_fernet (encrypted_data : bytes) (password : pystr)
    : outcome bytes :=
  let salt := take 16 encrypted_data in
  let ciphertext := drop 16 encrypted_data in
  key ← _derive_key password salt;
  let fernet_key := urlsafe_b64encode key in
  Fernet_decrypt fernet_key ciphertext.

Definition encrypt (data : bytes) (password : pystr) (method : string)
    : M bytes :=
  if decide (method = "AES-256") then _encrypt_aes data password
  else if decide (method = "ChaCha20") then _encrypt_chacha20 data password
  else if decide (method = "Fernet") then _encrypt_fernet data password
  else raise (Exn ValueError ("Unsupported encryption method: " +:+ method)).

Definition decrypt (encrypted_data : bytes) (password : pystr)
    (method : string) : outcome bytes :=
  if decide (method = "AES-256") then _decrypt_aes encrypted_data password
  else if decide (method = "ChaCha20")
       then _decrypt_chacha20 encrypted_data password
  else if decide (method = "Fernet")
       then _decrypt_fernet encrypted_data password
  else Raise (Exn ValueError ("Unsupported decryption method: " +:+ method)).

End with_libraries.
End EncryptionManager.

(** ** Quality metrics *)

(** [a.mean()] of an array of integers; the mean of an empty array is
    NaN.  The quotient is kept exact: rounding it to a float does not
    change whether it is zero. *)
Definition np_mean (a : list Z) : option Q :=
  match a with
  | [] => None
  | _ => Some (Qred (Qmake (foldr Z.add 0 a) (Pos.of_nat (length a))))
  end.

(** [calculate_psnr] on two uint8 arrays: the difference and its square
    are computed in uint8, modulo 256. *)
Definition calculate_psnr (original_image stego_image : list Z) : pyfloat :=
  let diff := zip_with (λ a b, (a - b) mod 256) original_image stego_image in
  let sq := (λ d, (d * d) mod 256) <$> diff in
  match np_mean sq with
  | None => float_nan
  | Some mse => if Qeq_bool mse 0 then float_inf else float_psnr mse
  end.

Module QualityAnalyzer.
Section with_libraries.
Context `{Libraries}.

(** [analyze_quality] on two uint8 arrays; [astype(float)] makes the
    differences of [mse] and [mae] exact. The histogram correlation and
    the quality label, which are derived floating-point figures, are
    left out of the report. *)
Definition analyze_quality (original_image stego_image : ndarray)
    : M quality_report :=
  if decide (shape original_image ≠ shape stego_image) then
    raise (Exn ValueError "Images must have the same dimensions")
  else
    original ← load (base original_image);
    stego ← load (base stego_image);
    psnr_val ← lift (match psnr_func with
                     | Some f => f original stego
                     | None => Ret (calculate_psnr original stego)
                     end);
    ssim_val ← lift (ssim_value (shape original_image) original stego);
    let diff := zip_with Z.sub original stego in
    mret (QualityReport psnr_val ssim_val
            (np_mean ((λ d, d ^ 2) <$> diff))
            (np_mean (Z.abs <$> diff))).

(** [calculate_capacity], the estimate of the embedding capacity from
    the shape of an image. [height, width = image_shape[:2]] needs two
    dimensions; [image_shape[2] if len(image_shape) == 3 else 1]. *)
Definition calculate_capacity (image_shape : list Z) (algorithm : string)
    : outcome Z :=
  '(height, width) ←
    match take 2 image_shape with
    | [height; width] => Ret (height, width)
    | l =>
        Raise (Exn ValueError
          ("not enough values to unpack (expected 2, got "
             +:+ pretty (length l) +:+ ")"))
    end;
  let channels :=
    match image_shape with
    | [_; _; channels] => channels
    | _ => 1
    end in
  if decide (algorithm = "LSB") then Ret ((height * width * channels) / 8)
  else if decide (algorithm = "DCT") then Ret ((height * width) / 64)
  else if decide (algorithm = "DWT") then Ret ((height * width) / 32)
  else Ret ((height * width) / 8).

End with_libraries.
End QualityAnalyzer.

(** The image utilities of [utils/image_utils.py]; [image] is what
    [load_image] returned for the path, [None] when the file could not
    be read. *)
Module ImageProcessor.

(** [validate_image]: the bare [except] turns the [ValueError] of the
    unpacking [height, width = image.shape[:2]] into [False]. *)
Definition validate_image (image : option ndarray) : bool :=
  match image with
  | None => false
  | Some image =>
      match take 2 (shape image) with
      | [height; width] => negb ((height <? 10) || (width <? 10))
      | _ => false
      end
  end.

(** [get_image_capacity]: [height, width, channels = image.shape]
    raises unless the array has three dimensions, and [except Exception]
    turns that into a capacity of 0. *)
Definition get_image_capacity (image : option ndarray) (algorithm : string)
    : Z :=
  match image with
  | None => 0
  | Some image =>
      match shape image with
      | [height; width; channels] =>
          if decide (algorithm = "LSB") then (height * width * channels) / 8
          else if decide (algorithm = "DCT") then (height * width) / 64
          else if decide (algorithm = "DWT") then (height * width) / 32
          else (height * width) / 8
      | _ => 0
      end
  end.

End ImageProcessor.

Module AdaptiveLSB.
Section with_libraries.
Context `{Libraries}.

Definition get_capacity (image : ndarray) : outcome Z :=
  '(height, width, channels) ← unpack_shape (shape image);
  let total_bits := height * width * channels in
  let usable_bits := int_mul_0_7 total_bits - 32 in
  Ret (Z.max 0 (usable_bits / 8)).

End with_libraries.
End AdaptiveLSB.

(** ** The engine *)

Inductive algorithm_id := LSB | DCT | DWT | Adaptive_LSB.

Inductive stego_image `{Libraries} :=
| Uint8Image (a : ndarray)
| FloatImage (f : float_image).

Inductive encode_result `{Libraries} :=
| EncodeSuccess (stego : stego_image) (analysis : quality_report)
    (capacity_used : Q)
| EncodeFailure (error : string).

Inductive decode_result :=
| DecodeSuccess (message : pystr) (data_size : nat)
| DecodeFailure (error : string).

Record header_info := HeaderInfo {
  encrypted : bool;
  compressed : bool;
  encryption_method : string;
  header_size : nat
}.

Module SteganographyEngine.
Section with_libraries.
Context `{Libraries}.

(** The keys of [self.algorithms]. *)
Definition algorithms (name : string) : option algorithm_id :=
  if decide (name = "LSB") then Some LSB
  else if decide (name = "DCT") then Some DCT
  else if decide (name = "DWT") then Some DWT
  else if decide (name = "Adaptive LSB") then Some Adaptive_LSB
  else None.

Definition get_capacity (a : algorithm_id) (image : ndarray) : outcome Z :=
  match a with
  | LSB => LSBSteganography.get_capacity image
  | DCT => DCTSteganography.get_capacity image
  | DWT => DWTSteganography.get_capacity image
  | Adaptive_LSB => AdaptiveLSB.get_capacity image
  end.

(** [format(ord(c), '08b') for c in data], the bit conversion of the DCT
    and DWT classes: the elements of a [bytes] object are integers, on
    which [ord] raises. *)
Definition _string_to_bits (data : bytes) : outcome (list bool) :=
  match data with
  | [] => Ret []
  | _ :: _ =>
      Raise (Exn TypeError "ord() expected string of length 1, but int found")
  end.

(** [self.algorithms[algorithm].embed(image, processed_message)]. The
    DCT class converts the data to bits before it transforms the image,
    the DWT class after; with no bits to embed their loops leave the
    coefficients as they are. *)
Definition embed (a : algorithm_id) (image : ndarray) (payload : bytes)
    : M stego_image :=
  match a with
  | LSB =>
      stego ← LSBSteganography.embed image (Bytes payload);
      mret (Uint8Image stego)
  | DCT =>
      data_bits ← lift (_string_to_bits payload);
      samples ← load (base image);
      stego ← lift (scipy_dct_idct (shape image) samples);
      mret (FloatImage stego)
  | DWT =>
      samples ← load (base image);
      coeffs ← lift (pywt_dwt2 (shape image) samples);
      binary_data ← lift (_string_to_bits payload);
      stego ← lift (pywt_idwt2 coeffs);
      mret (FloatImage stego)
  | Adaptive_LSB =>
      samples ← load (base image);
      stego ← lift (adaptive_embed_data (shape image) samples
                      (to_binary payload));
      mret (FloatImage stego)
  end.

Definition _create_header (encrypted compressed : bool)
    (encryption_method : string) : bytes :=
  let flags := 0 in
  let flags := if encrypted then Z.lor flags 1 else flags in
  let flags := if compressed then Z.lor flags 2 else flags in
  let method_id :=
    if decide (encryption_method = "AES-256") then 0
    else if decide (encryption_method = "ChaCha20") then 1
    else if decide (encryption_method = "Fernet") then 2
    else 0 in
  [flags; method_id].

(** [_parse_header]. On a [str] the subscript [data[0]] is a string, on
    which [& 1] raises. *)
Definition _parse_header (data : str_or_bytes) : outcome header_info :=
  match data with
  | Bytes data =>
      if decide (length data < 2)%nat then
        Raise (Exn ValueError "Invalid data format")
      else
        let flags := default 0 (data !! 0%nat) in
        let method_id := default 0 (data !! 1%nat) in
        let method :=
          if decide (method_id = 0) then "AES-256"
          else if decide (method_id = 1) then "ChaCha20"
          else if decide (method_id = 2) then "Fernet"
          else "AES-256" in
        Ret (HeaderInfo (negb (Z.land flags 1 =? 0))
               (negb (Z.land flags 2 =? 0)) method 2)
  | Str data =>
      if decide (length data < 2)%nat then
        Raise (Exn ValueError "Invalid data format")
      else
        Raise (Exn TypeError "unsupported operand type(s) for &: 'str' and 'int'")
  end.

Definition _prepare_message (message password : pystr)
    (encryption_method : string) (compression_level : Z) : M bytes :=
  message_bytes ← lift (utf8_encode message);
  message_bytes ←
    (if decide (compression_level > 0)
     then lift (zlib_compress message_bytes compression_level)
     else mret message_bytes);
  message_bytes ←
    (if decide (password ≠ [])
     then EncryptionManager.encrypt message_bytes password encryption_method
     else mret message_bytes);
  let header :=
    _create_header (bool_decide (password ≠ []))
      (bool_decide (compression_level > 0)) encryption_method in
  mret (header ++ message_bytes).

Definition _process_extracted_data (data : str_or_bytes) (password : pystr)
    : outcome pystr :=
  header_info ← _parse_header data;
  let message_data :=
    drop (header_size header_info)
      (match data with Bytes b => b | Str s => s end) in
  message_data ←
    (if encrypted header_info && bool_decide (password ≠ [])
     then EncryptionManager.decrypt message_data password
            (encryption_method header_info)
     else Ret message_data);
  message_data ←
    (if compressed header_info
     then zlib_decompress message_data
     else Ret message_data);
  decode_strict message_data.

(** [except ValueError] around the body of a task. *)
Definition catch_ValueError {A} (body : M A) (handler : string → A) : M A :=
  λ w,
    match body w with
    | (Ret r, w') => (Ret r, w')
    | (Raise e, w') =>
        if isinstance_ValueError e then (Ret (handler (exn_msg e)), w')
        else (Raise e, w')
    end.

Definition analyze (image : ndarray) (stego : stego_image)
    : M quality_report :=
  match stego with
  | Uint8Image s => QualityAnalyzer.analyze_quality image s
  | FloatImage f =>
      samples ← load (base image);
      lift (analyze_float (shape image) samples f)
  end.

(** [encode_task], the body of [encode_async]; [image] is what
    [load_image] returned for the path. *)
Definition encode_task (image : option ndarray) (message password : pystr)
    (algorithm encryption_method : string) (compression_level : Z)
    : M encode_result :=
  catch_ValueError
    (image ← match image with
             | None => raise (Exn ValueError "Failed to load image")
             | Some image => mret image
             end;
     processed_message ←
       _prepare_message message password encryption_method compression_level;
     a ← match algorithms algorithm with
         | None =>
             raise (Exn ValueError
               ("Unknown algorithm '" +:+ algorithm
                  +:+ "'. Available algorithms: ['LSB', 'DCT', 'DWT', 'Adaptive LSB']"))
         | Some a => mret a
         end;
     capacity ← lift (get_capacity a image);
     if decide (Z.of_nat (length processed_message) > capacity) then
       raise (Exn ValueError
         ("Message too large. Max capacity: " +:+ pretty capacity
            +:+ " bytes"))
     else
       stego ← embed a image processed_message;
       analysis ← analyze image stego;
       mret (EncodeSuccess stego analysis
               (inject_Z (Z.of_nat (length processed_message))
                  / inject_Z capacity * inject_Z 100)%Q))
    EncodeFailure.

Definition extract (a : algorithm_id) (image : ndarray) : M pystr :=
  match a with
  | LSB => LSBSteganography.extract image LSBSteganography.default_max_length
  | DCT =>
      samples ← load (base image);
      lift (transform_extract "DCT" (shape image) samples)
  | DWT =>
      samples ← load (base image);
      lift (transform_extract "DWT" (shape image) samples)
  | Adaptive_LSB =>
      samples ← load (base image);
      lift (transform_extract "Adaptive LSB" (shape image) samples)
  end.

(** [decode_task], the body of [decode_async]. Every algorithm's
    [extract] returns a [str]. *)
Definition decode_task (image : option ndarray) (password : pystr)
    (algorithm : string) : M decode_result :=
  catch_ValueError
    (image ← match image with
             | None => raise (Exn ValueError "Failed to load image")
             | Some image => mret image
             end;
     a ← match algorithms algorithm with
         | None =>
             raise (Exn ValueError
               ("Unknown algorithm '" +:+ algorithm
                  +:+ "'. Available algorithms: ['LSB', 'DCT', 'DWT', 'Adaptive LSB']"))
         | Some a => mret a
         end;
     extracted_data ← extract a image;
     message ← lift (_process_extracted_data (Str extracted_data) password);
     mret (DecodeSuccess message (length extracted_data)))
    DecodeFailure.

(** [validate_image]; [image] is what [load_image] returned. The
    [except IOError] clause does not catch the [ValueError] of the
    unpacking [height, width = image.shape[:2]]. *)
Definition validate_image (image : option ndarray) : outcome bool :=
  match image with
  | None => Ret false
  | Some image =>
      match take 2 (shape image) with
      | [height; width] => Ret (negb ((height <? 100) || (width <? 100)))
      | l =>
          Raise (Exn ValueError
            ("not enough values to unpack (expected 2, got "
               +:+ pretty (length l) +:+ ")"))
      end
  end.

End with_libraries.
End SteganographyEngine.

(** ** A reference instance of the library interface

    Identity ciphers and an identity compressor: enough to run the model
    on concrete inputs, and to show that [LibrariesLaws] can be met. This
    instance has no [skimage], so the module's own PSNR is used. *)

Definition identity_libraries : Libraries := {|
  PBKDF2HMAC_derive := λ _ _, replicate 32 0;
  AES_CBC_encrypt := λ _ _ data, Ret data;
  AES_CBC_decrypt := λ _ _ data, Ret data;
  ChaCha20_xor := λ _ _ data, data;
  urlsafe_b64encode := λ key, key;
  time_now := 0;
  Fernet_encrypt_from_parts := λ _ data _ _, Ret data;
  Fernet_decrypt := λ _ token, Ret token;
  zlib_compress := λ data _, Ret data;
  zlib_decompress := λ data, Ret data;
  int_mul_0_7 := λ n, 7 * n / 10;
  float_image := unit;
  wavelet_coefficients := unit;
  scipy_dct_idct := λ _ _, Ret ();
  pywt_dwt2 := λ _ _, Ret ();
  pywt_idwt2 := λ _, Ret ();
  adaptive_embed_data := λ _ _ _, Ret ();
  transform_extract := λ _ _ _, Ret [];
  psnr_func := None;
  ssim_value := λ _ _ _, Ret (float_Q 1);
  analyze_float := λ _ _ _,
    Ret (QualityReport float_nan float_nan None None)
|}.

(** A small world: one 4x4 RGB image whose samples are all 200, and an
    entropy tape of zeros. *)
Definition flat_200 : world := World [replicate 48 200] (λ _, 0) 0%nat.

Definition image_4x4x3 : ndarray := NdArray 0%nat [4; 4; 3].

(** The same image with every sample odd: its least significant bits
    spell the bytes 255, so the delimiter occurs nowhere. *)
Definition flat_201 : world := World [replicate 48 201] (λ _, 0) 0%nat.

(** A 4x6 RGB image, large enough for a frame of four bytes and the
    delimiter. *)
Definition flat_4x6x3 : world := World [replicate 72 200] (λ _, 0) 0%nat.

Definition image_4x6x3 : ndarray := NdArray 0%nat [4; 6; 3].

(** ** Notions used in the statements *)

(** The samples of [buf] after their least significant bits have been
    overwritten, from the first sample on, with [bits]. *)
Fixpoint set_lsbs (bits : list bool) (buf : list Z) : list Z :=
  match bits, buf with
  | bit :: bits', x :: buf' =>
      (Z.lor (Z.land x 0xFE) (Z.b2z bit)) mod 256 :: set_lsbs bits' buf'
  | _, _ => buf
  end.

(** The array [image] is backed by a buffer of the size its shape
    announces. *)
Definition valid_image (w : world) (image : ndarray) : Prop :=
  ∃ buf, buffers w !! base image = Some buf
         ∧ Z.of_nat (length buf) = prod_shape (shape image).

(** No proper prefix of the delimited payload ends with the delimiter:
    the payload does not end in a zero byte and holds no four
    consecutive zero bytes. *)
Definition delimiter_free (payload : bytes) : bool :=
  forallb
    (λ j, negb (LSBSteganography.ends_with_delimiter
                  (take j (payload ++ LSBSteganography.delimiter))))
    (seq 0 (length payload + 4)).

(** The value of the capacity test of [embed]. *)
Definition embed_total_capacity (shp : list Z) : outcome Z :=
  s0 ← shape_at shp 0;
  s1 ← shape_at shp 1;
  if decide (length shp = 3%nat) then
    s2 ← shape_at shp 2;
    Ret (s0 * s1 * s2)
  else Ret (s0 * s1).

(** A computation that leaves every array buffer as it found it. *)
Definition keeps_buffers {A} (m : M A) : Prop :=
  ∀ w r w', m w = (r, w') → buffers w' = buffers w.

(** The bits [extract] reads from a buffer. *)
Definition bits_read (buf : list Z) (max_length : Z) : list bool :=
  (λ x, bool_decide (Z.land x 1 = 1))
    <$> take (Z.to_nat (Z.min (Z.of_nat (length buf)) (max_length * 8))) buf.

(** A code point that UTF-8 can encode: within the Unicode range and
    not a surrogate. *)
Definition is_scalar_value (c : Z) : Prop :=
  0 ≤ c ≤ 0x10FFFF ∧ ¬ (0xD800 ≤ c ≤ 0xDFFF).

(** The complete bytes of a bit string, eight bits at a time. *)
Definition byte_stream (binary_data : list bool) : list Z :=
  (λ i, int_base2 (take 8 (drop i binary_data)))
    <$> filter (λ i, i + 8 ≤ length binary_data)%nat
          (LSBSteganography.range_step8 (length binary_data)).

(** * Properties *)

(** ** The definitions at work *)

Example format_08b_A :
  format_08b 65 = [false; true; false; false; false; false; false; true].
Proof. reflexivity. Qed.

Example int_base2_A :
  int_base2 [false; true; false; false; false; false; false; true] = 65.
Proof. reflexivity. Qed.

Example utf8_encode_e_acute : utf8_encode [233] = Ret [195; 169].
Proof. reflexivity. Qed.

Example decode_ignore_drops : decode_ignore [72; 255; 105; 195] = [72; 105].
Proof. reflexivity. Qed.

Example lsb_capacity_300x300x3 :
  LSBSteganography.get_capacity (NdArray 0%nat [300; 300; 3]) = Ret 33746.
Proof. reflexivity. Qed.

Example lsb_capacity_small :
  LSBSteganography.get_capacity (NdArray 0%nat [2; 2; 3]) = Ret 0.
Proof. reflexivity. Qed.

Example create_header_fernet :
  SteganographyEngine._create_header true true "Fernet" = [3; 2].
Proof. reflexivity. Qed.

Example pad_data_block :
  EncryptionManager._pad_data [1; 2; 3]
  = [1; 2; 3; 13; 13; 13; 13; 13; 13; 13; 13; 13; 13; 13; 13; 13].
Proof. reflexivity. Qed.

Example embed_sets_lsbs :
  fst (LSBSteganography.embed image_4x4x3 (Bytes [65]) flat_200)
  = Ret (NdArray 2%nat [4; 4; 3])
  ∧ take 8 <$> buffers
      (snd (LSBSteganography.embed image_4x4x3 (Bytes [65]) flat_200))
    = [[200; 200; 200; 200; 200; 200; 200; 200];
       [200; 200; 200; 200; 200; 200; 200; 200];
       [200; 201; 200; 200; 200; 200; 200; 201]].
Proof. split; vm_compute; reflexivity. Qed.

(** ** The state monad *)

Lemma bind_Ret {A B} (m : M A) (k : A → M B) w a w1 :
  m w = (Ret a, w1) → (m ≫= k) w = k a w1.
Proof. intros E. unfold mbind, M_bind. by rewrite E. Qed.

Lemma bind_inv {A B} (m : M A) (k : A → M B) w r w' :
  (m ≫= k) w = (r, w') →
  (∃ a w1, m w = (Ret a, w1) ∧ k a w1 = (r, w'))
  ∨ (∃ e, m w = (Raise e, w') ∧ r = Raise e).
Proof.
  unfold mbind, M_bind. destruct (m w) as [[a|e] w1] eqn:E; intros Hk.
  - left. eauto.
  - right. exists e. by inversion Hk.
Qed.

Lemma bind_Ret_inv {A B} (m : M A) (k : A → M B) w b w' :
  (m ≫= k) w = (Ret b, w') →
  ∃ a w1, m w = (Ret a, w1) ∧ k a w1 = (Ret b, w').
Proof.
  intros [?|(e & _ & ?)]%bind_inv; [done | discriminate].
Qed.

Lemma set_buffers_id w : set_buffers w (buffers w) = w.
Proof. by destruct w. Qed.

Lemma buffers_set_buffers w bs : buffers (set_buffers w bs) = bs.
Proof. done. Qed.

Lemma set_buffers_twice w bs bs' :
  set_buffers (set_buffers w bs) bs' = set_buffers w bs'.
Proof. done. Qed.

(** ** Bit-level facts *)

Lemma forall_byte (P : Z → bool) :
  forallb P (Z.of_nat <$> seq 0 256) = true →
  ∀ r, 0 ≤ r < 256 → P r = true.
Proof.
  intros HP r Hr. rewrite forallb_forall in HP. apply HP.
  apply list_elem_of_In, list_elem_of_fmap. exists (Z.to_nat r).
  split; [lia |]. apply list_elem_of_In, in_seq. lia.
Qed.

Lemma land_0xFE_mod x : Z.land x 0xFE = Z.land (x mod 256) 0xFE.
Proof.
  change 256 with (2 ^ 8). rewrite <- Z.land_ones by lia.
  rewrite <- Z.land_assoc. reflexivity.
Qed.

Lemma stored_sample_lsb x (bit : bool) :
  bool_decide (Z.land ((Z.lor (Z.land x 0xFE) (Z.b2z bit)) mod 256) 1 = 1)
  = bit.
Proof.
  rewrite land_0xFE_mod.
  assert (Hr : 0 ≤ x mod 256 < 256) by (apply Z.mod_pos_bound; lia).
  revert Hr. generalize (x mod 256). intros r Hr.
  pose proof (forall_byte
    (λ r, bool_decide
      (∀ bit : bool,
         bool_decide
           (Z.land ((Z.lor (Z.land r 0xFE) (Z.b2z bit)) mod 256) 1 = 1)
         = bit))) as HP.
  specialize (HP ltac:(vm_compute; reflexivity) r Hr).
  apply bool_decide_eq_true in HP. apply HP.
Qed.

Lemma stored_sample_upper_bits x (bit : bool) :
  Z.land ((Z.lor (Z.land x 0xFE) (Z.b2z bit)) mod 256) 0xFE
  = Z.land x 0xFE.
Proof.
  rewrite (land_0xFE_mod x).
  assert (Hr : 0 ≤ x mod 256 < 256) by (apply Z.mod_pos_bound; lia).
  revert Hr. generalize (x mod 256). intros r Hr.
  pose proof (forall_byte
    (λ r, bool_decide
      (∀ bit : bool,
         Z.land ((Z.lor (Z.land r 0xFE) (Z.b2z bit)) mod 256) 0xFE
         = Z.land r 0xFE))) as HP.
  specialize (HP ltac:(vm_compute; reflexivity) r Hr).
  apply bool_decide_eq_true in HP. apply HP.
Qed.

Lemma int_base2_format_08b b : is_byte b → int_base2 (format_08b b) = b.
Proof.
  intros Hb.
  pose proof (forall_byte
    (λ r, bool_decide (int_base2 (format_08b r) = r))) as HP.
  specialize (HP ltac:(vm_compute; reflexivity) b Hb).
  by apply bool_decide_eq_true in HP.
Qed.

Lemma length_to_binary data : length (to_binary data) = (8 * length data)%nat.
Proof.
  unfold to_binary. induction data as [|b data IH]; [done |].
  rewrite bind_cons, length_app, IH. cbn. lia.
Qed.

Lemma to_binary_app data1 data2 :
  to_binary (data1 ++ data2) = to_binary data1 ++ to_binary data2.
Proof. unfold to_binary. apply bind_app. Qed.

(** ** UTF-8 *)

Lemma split_64 c : c = 64 * (c / 64) + c mod 64 ∧ 0 ≤ c mod 64 < 64.
Proof.
  split; [apply Z.div_mod; lia | apply Z.mod_pos_bound; lia].
Qed.

Lemma div_4096 c : c / 4096 = c / 64 / 64.
Proof. rewrite Z.div_div by lia. reflexivity. Qed.

Lemma div_262144 c : c / 262144 = c / 64 / 64 / 64.
Proof. rewrite !Z.div_div by lia. reflexivity. Qed.

Ltac decide_comparisons :=
  repeat match goal with
  | |- context [?a <? ?b] => destruct (Z.ltb_spec a b); try lia
  | |- context [?a <=? ?b] => destruct (Z.leb_spec a b); try lia
  | |- context [?a =? ?b] => destruct (Z.eqb_spec a b); try lia
  end.

Lemma utf8_scan_encoded_char c bs rest :
  is_scalar_value c →
  utf8_encode_char c = Ret bs →
  utf8_scan (bs ++ rest) = Some c :: utf8_scan rest.
Proof.
  intros [Hrange Hsur]. unfold utf8_encode_char.
  rewrite div_262144, div_4096.
  pose proof (split_64 c) as [E0 B0].
  pose proof (split_64 (c / 64)) as [E1 B1].
  pose proof (split_64 (c / 64 / 64)) as [E2 B2].
  revert E0 E1 E2.
  set (r0 := c mod 64) in *. set (q1 := c / 64) in *.
  set (r1 := q1 mod 64) in *. set (q2 := q1 / 64) in *.
  set (r2 := q2 mod 64) in *. set (q3 := q2 / 64) in *.
  clearbody r0 q1 r1 q2 r2 q3. intros E0 E1 E2.
  destruct (Z.ltb_spec c 0x80).
  { intros [= <-]. cbn [app utf8_scan]. by decide_comparisons. }
  destruct (Z.ltb_spec c 0x800).
  { intros [= <-]. cbn [app utf8_scan]. unfold is_continuation.
    decide_comparisons. cbn [andb]. do 2 f_equal. lia. }
  destruct (Z.leb_spec 0xD800 c), (Z.leb_spec c 0xDFFF);
    cbn [andb]; try lia.
  all: destruct (Z.ltb_spec c 0x10000); intros [= <-].
  all: cbn [app utf8_scan]; unfold is_continuation.
  all: decide_comparisons; cbn [andb negb orb]; decide_comparisons.
  all: do 2 f_equal; lia.
Qed.

Lemma utf8_round_trip text : ∀ data,
  Forall is_scalar_value text →
  utf8_encode text = Ret data →
  utf8_scan data = Some <$> text.
Proof.
  induction text as [|c text IH]; intros data Hvalid; cbn [utf8_encode].
  - by intros [= <-].
  - inversion Hvalid as [|? ? Hc Htext]; subst.
    destruct (utf8_encode_char c) as [bs|] eqn:Hbs; [| done].
    cbn [mbind outcome_bind].
    destruct (utf8_encode text) as [data'|]; [| done].
    cbn [mbind outcome_bind]. intros [= <-].
    rewrite (utf8_scan_encoded_char c bs data' Hc Hbs).
    cbn [fmap list_fmap]. f_equal. by apply IH.
Qed.

Lemma omap_Some {A} (l : list A) : omap id (Some <$> l) = l.
Proof. induction l as [|x l IH]; [done |]. cbn. by rewrite IH. Qed.

Lemma decode_ignore_encoded text data :
  Forall is_scalar_value text →
  utf8_encode text = Ret data →
  decode_ignore data = text.
Proof.
  intros Hvalid Hdata. unfold decode_ignore.
  rewrite (utf8_round_trip text data Hvalid Hdata). apply omap_Some.
Qed.


Lemma utf8_encode_char_bytes c bs :
  is_scalar_value c → c ≠ 0 →
  utf8_encode_char c = Ret bs →
  Forall (λ b, is_byte b ∧ b ≠ 0) bs.
Proof.
  intros [Hrange Hsur] Hnz. unfold utf8_encode_char, is_byte.
  rewrite div_262144, div_4096.
  pose proof (split_64 c) as [E0 B0].
  pose proof (split_64 (c / 64)) as [E1 B1].
  pose proof (split_64 (c / 64 / 64)) as [E2 B2].
  revert E0 E1 E2.
  set (r0 := c mod 64) in *. set (q1 := c / 64) in *.
  set (r1 := q1 mod 64) in *. set (q2 := q1 / 64) in *.
  set (r2 := q2 mod 64) in *. set (q3 := q2 / 64) in *.
  clearbody r0 q1 r1 q2 r2 q3. intros E0 E1 E2.
  repeat case_match; intros [= <-]; repeat constructor;
    repeat match goal with
    | H : (_ <? _) = _ |- _ =>
        first [apply Z.ltb_lt in H | apply Z.ltb_ge in H]
    | H : (_ && _) = _ |- _ =>
        first [apply andb_true_iff in H as [? ?]
              | apply andb_false_iff in H as [?|?]]
    | H : (_ <=? _) = _ |- _ =>
        first [apply Z.leb_le in H | apply Z.leb_gt in H]
    end; lia.
Qed.

Lemma utf8_encode_bytes text : ∀ data,
  Forall is_scalar_value text →
  Forall (λ c, c ≠ 0) text →
  utf8_encode text = Ret data →
  Forall (λ b, is_byte b ∧ b ≠ 0) data.
Proof.
  induction text as [|c text IH]; intros data Hvalid Hnz; cbn [utf8_encode].
  - by intros [= <-].
  - inversion Hvalid; inversion Hnz; subst.
    destruct (utf8_encode_char c) as [bs|] eqn:Hbs; [| done].
    cbn [mbind outcome_bind].
    destruct (utf8_encode text) as [data'|]; [| done].
    cbn [mbind outcome_bind]. intros [= <-].
    apply Forall_app. split; [by eapply utf8_encode_char_bytes | by apply IH].
Qed.

(** ** Capacity *)

(** C7. The LSB capacity of an image of height [H], width [W] and [C]
    channels is the floor of [(H*W*C - 32) / 8] bytes, and 0 when that
    is negative; a two-dimensional array counts as one channel. *)
Theorem lsb_capacity_formula (b : loc) (H W C : Z) :
  LSBSteganography.get_capacity (NdArray b [H; W; C])
    = Ret (Z.max 0 ((H * W * C - 32) / 8))
  ∧ LSBSteganography.get_capacity (NdArray b [H; W])
    = Ret (Z.max 0 ((H * W * 1 - 32) / 8))
  ∧ 0 ≤ Z.max 0 ((H * W * C - 32) / 8).
Proof.
  split; [reflexivity | split; [reflexivity | lia]].
Qed.

Lemma dct_capacity_formula (b : loc) (H W C : Z) :
  DCTSteganography.get_capacity (NdArray b [H; W; C])
    = Ret (Z.max 0 ((H / 8) * (W / 8) * C / 8))
  ∧ DCTSteganography.get_capacity (NdArray b [H; W])
    = Ret (Z.max 0 ((H / 8) * (W / 8) / 8)).
Proof.
  unfold DCTSteganography.get_capacity; cbn.
  rewrite !Z.mul_1_r. done.
Qed.

(** C8, as stated, fails: the DCT capacity of a 64x64 single-channel
    array is 8 bytes and that of the RGB array the engine loads for a
    64x64 image is 24 bytes, not [64 * 64 / 64 = 64]; the engine refuses
    a payload of 25 bytes for that image. *)
Lemma dct_capacity_64x64_is_not_64 :
  DCTSteganography.get_capacity (NdArray 0%nat [64; 64]) = Ret 8
  ∧ DCTSteganography.get_capacity (NdArray 0%nat [64; 64])
    ≠ Ret (64 * 64 / 64)
  ∧ DCTSteganography.get_capacity (NdArray 0%nat [64; 64; 3]) = Ret 24
  ∧ DCTSteganography.get_capacity (NdArray 0%nat [64; 64; 3])
    ≠ Ret (64 * 64 / 64)
  ∧ SteganographyEngine.encode_task (H := identity_libraries)
      (Some (NdArray 0%nat [64; 64; 3])) (replicate 23 65) [] "DCT"
      "AES-256" 0 flat_200
    = (Ret (EncodeFailure "Message too large. Max capacity: 24 bytes"),
       flat_200).
Proof.
  split; [reflexivity |]. split; [discriminate |].
  split; [reflexivity |]. split; [discriminate |].
  vm_compute. reflexivity.
Qed.

Lemma lsb_capacity_inv image capacity :
  LSBSteganography.get_capacity image = Ret capacity →
  embed_total_capacity (shape image) = Ret (prod_shape (shape image))
  ∧ capacity = Z.max 0 ((prod_shape (shape image) - 32) / 8).
Proof.
  unfold LSBSteganography.get_capacity, embed_total_capacity.
  destruct (shape image) as [|h [|w [|c [|d shp]]]]; cbn; try done.
  - intros [= <-]. split; [f_equal; lia | do 3 f_equal; lia].
  - intros [= <-]. split; [f_equal; lia | do 3 f_equal; lia].
Qed.

(** ** The embedding loop *)

Lemma set_lsbs_nil bits : set_lsbs bits [] = [].
Proof. by destruct bits. Qed.

Lemma length_set_lsbs bits buf : length (set_lsbs bits buf) = length buf.
Proof.
  revert buf. induction bits as [|bit bits IH]; intros [|x buf]; cbn; auto.
Qed.

Lemma set_lsbs_upper_bits bits buf i x y :
  buf !! i = Some x → set_lsbs bits buf !! i = Some y →
  Z.land y 0xFE = Z.land x 0xFE.
Proof.
  revert buf i. induction bits as [|bit bits IH]; intros buf i.
  - cbn. congruence.
  - destruct buf as [|x0 buf]; [done |].
    destruct i as [|i]; cbn.
    + intros [= ->] [= <-]. apply stored_sample_upper_bits.
    + apply IH.
Qed.

Lemma set_lsbs_read bits buf :
  (length bits ≤ length buf)%nat →
  (λ x, bool_decide (Z.land x 1 = 1)) <$> set_lsbs bits buf
  = bits ++ ((λ x, bool_decide (Z.land x 1 = 1)) <$> drop (length bits) buf).
Proof.
  revert buf. induction bits as [|bit bits IH]; intros buf Hlen.
  - done.
  - destruct buf as [|x buf]; [cbn in Hlen; lia |].
    cbn in Hlen. cbn [set_lsbs fmap list_fmap length drop app].
    rewrite stored_sample_lsb. f_equal. apply IH. lia.
Qed.

Lemma alter_lookup_insert {A} (f : A → A) (l : list A) i x :
  l !! i = Some x → alter f i l = <[i := f x]> l.
Proof.
  intros Hx. pose proof (lookup_lt_Some _ _ _ Hx) as Hi.
  apply list_eq. intros j. destruct (decide (i = j)) as [<-|Hne].
  - by rewrite list_lookup_alter_eq, Hx, list_lookup_insert_eq.
  - by rewrite list_lookup_alter_ne, list_lookup_insert_ne.
Qed.

Lemma split_after_insert {A} (l : list A) i x v :
  l !! i = Some x →
  take (S i) (<[i := v]> l) = take i l ++ [v]
  ∧ drop (S i) (<[i := v]> l) = drop (S i) l.
Proof.
  intros Hx. pose proof (lookup_lt_Some _ _ _ Hx) as Hi.
  split.
  - rewrite (take_S_r _ _ v) by (by apply list_lookup_insert_eq).
    by rewrite take_insert_ge by lia.
  - by rewrite drop_insert_lt by lia.
Qed.

Lemma embed_loop_spec bits : ∀ flat_image i w buf,
  buffers w !! base flat_image = Some buf →
  LSBSteganography.embed_loop flat_image i bits w
  = (Ret (),
     set_buffers w
       (<[base flat_image := take i buf ++ set_lsbs bits (drop i buf)]>
          (buffers w))).
Proof.
  induction bits as [|bit bits IH]; intros flat i w buf Hbuf.
  - cbn. rewrite take_drop, list_insert_id by done.
    by rewrite set_buffers_id.
  - cbn [LSBSteganography.embed_loop].
    assert (Hload : load (base flat) w = (Ret buf, w))
      by (unfold load; by rewrite Hbuf).
    assert (Hlen : len flat w = (Ret (length buf), w))
      by (unfold len; by erewrite bind_Ret by exact Hload).
    erewrite bind_Ret by exact Hlen.
    destruct (decide (i < length buf)%nat) as [Hi|Hi].
    + destruct (lookup_lt_is_Some_2 buf i Hi) as [x Hx].
      assert (Hget : getitem flat i w = (Ret x, w)).
      { unfold getitem. erewrite bind_Ret by exact Hload. by rewrite Hx. }
      erewrite bind_Ret; cycle 1.
      { erewrite bind_Ret by exact Hget. reflexivity. }
      cbn beta.
      set (v := (Z.lor (Z.land x 254) (Z.b2z bit)) mod 256).
      rewrite (alter_lookup_insert _ _ _ buf) by done.
      erewrite IH; cycle 1.
      { rewrite buffers_set_buffers. apply list_lookup_insert_eq.
        by eapply lookup_lt_Some. }
      rewrite set_buffers_twice, buffers_set_buffers. do 2 f_equal.
      rewrite list_insert_insert_eq. f_equal.
      destruct (split_after_insert buf i x v Hx) as [-> ->].
      rewrite (drop_S _ _ _ Hx). cbn [set_lsbs]. fold v.
      by rewrite <- app_assoc.
    + erewrite bind_Ret by reflexivity.
      erewrite IH by done. do 3 f_equal.
      rewrite !drop_ge, !set_lsbs_nil, !take_ge by lia. done.
Qed.

(** ** What [embed] does to the world *)

Lemma lift_inv {A} (o : outcome A) w r w' :
  lift o w = (r, w') → r = o ∧ w' = w.
Proof. unfold lift. by intros [= <- <-]. Qed.

Lemma load_Ret l w buf :
  buffers w !! l = Some buf → load l w = (Ret buf, w).
Proof. intros E. unfold load. by rewrite E. Qed.

Lemma np_copy_Ret image w buf :
  buffers w !! base image = Some buf →
  np_copy image w
  = (Ret (NdArray (length (buffers w)) (shape image)),
     set_buffers w (buffers w ++ [buf])).
Proof.
  intros E. unfold np_copy.
  erewrite bind_Ret by (by apply load_Ret). reflexivity.
Qed.

Lemma flatten_Ret a w buf :
  buffers w !! base a = Some buf →
  flatten a w
  = (Ret (NdArray (length (buffers w)) [Z.of_nat (length buf)]),
     set_buffers w (buffers w ++ [buf])).
Proof.
  intros E. unfold flatten.
  erewrite bind_Ret by (by apply load_Ret). reflexivity.
Qed.

Lemma reshape_eval a shp w buf :
  buffers w !! base a = Some buf →
  reshape a shp w
  = if decide (prod_shape shp = Z.of_nat (length buf))
    then (Ret (NdArray (base a) shp), w)
    else (Raise (Exn ValueError "cannot reshape array into the given shape"), w).
Proof.
  intros E. unfold reshape.
  erewrite bind_Ret by (by apply load_Ret). by case_decide.
Qed.

(** After the copy of the input has been taken, [embed] is a function
    of the copied samples. *)
Lemma embed_eval image secret_data w buf :
  buffers w !! base image = Some buf →
  LSBSteganography.embed image secret_data w
  = let w1 := set_buffers w (buffers w ++ [buf]) in
    match encode_if_str secret_data with
    | Raise e => (Raise e, w1)
    | Ret data =>
      let binary_data := to_binary (data ++ LSBSteganography.delimiter) in
      match embed_total_capacity (shape image) with
      | Raise e => (Raise e, w1)
      | Ret total_capacity =>
        if decide (Z.of_nat (length binary_data) > total_capacity) then
          (Raise (Exn ValueError
             ("Image too small to hold data. Need "
                +:+ pretty (Z.of_nat (length binary_data))
                +:+ " bits, have " +:+ pretty total_capacity)), w1)
        else
          let w3 := set_buffers w
                      (buffers w ++ [buf; set_lsbs binary_data buf]) in
          if decide (prod_shape (shape image) = Z.of_nat (length buf))
          then (Ret (NdArray (S (length (buffers w))) (shape image)), w3)
          else (Raise (Exn ValueError
                  "cannot reshape array into the given shape"), w3)
      end
    end.
Proof.
  intros Hbuf. unfold LSBSteganography.embed.
  erewrite bind_Ret by (by apply np_copy_Ret). cbn zeta.
  set (w1 := set_buffers w (buffers w ++ [buf])).
  set (n := length (buffers w)).
  destruct (encode_if_str secret_data) as [data|e] eqn:Hdata; [| done].
  erewrite bind_Ret by reflexivity. cbn [shape].
  unfold embed_total_capacity.
  destruct (shape_at (shape image) 0) as [s0|e] eqn:H0; [| done].
  erewrite bind_Ret by reflexivity.
  destruct (shape_at (shape image) 1) as [s1|e] eqn:H1; [| done].
  erewrite bind_Ret by reflexivity. cbn [mbind outcome_bind].
  assert (Htc : ∀ (k : Z → M ndarray),
    ((if decide (length (shape image) = 3%nat)
      then s2 ← lift (shape_at (shape image) 2); mret (s0 * s1 * s2)
      else mret (s0 * s1)) ≫= k) w1
    = match (if decide (length (shape image) = 3%nat)
             then s2 ← shape_at (shape image) 2; Ret (s0 * s1 * s2)
             else Ret (s0 * s1)) with
      | Ret tc => k tc w1
      | Raise e => (Raise e, w1)
      end).
  { intros k. case_decide; [| done].
    destruct (shape_at (shape image) 2) as [s2|e]; done. }
  rewrite Htc. clear Htc.
  destruct (if decide (length (shape image) = 3%nat)
            then _ else _) as [tc|e]; [| done].
  case_decide; [done |].
  assert (Hn : buffers w1 !! n = Some buf).
  { subst w1 n. rewrite buffers_set_buffers.
    by rewrite lookup_app_r, Nat.sub_diag by lia. }
  erewrite bind_Ret by (by apply (flatten_Ret (NdArray n _))).
  assert (Hlen1 : length (buffers w1) = S n).
  { subst w1 n. rewrite buffers_set_buffers, length_app. cbn. lia. }
  rewrite Hlen1.
  set (w2 := set_buffers w1 (buffers w1 ++ [buf])).
  assert (Hflat : buffers w2 !! S n = Some buf).
  { subst w2. rewrite buffers_set_buffers.
    by rewrite lookup_app_r, Hlen1, Nat.sub_diag by lia. }
  erewrite bind_Ret by (by apply embed_loop_spec).
  rewrite take_0, drop_0. cbn [app base].
  assert (Hw3 :
    set_buffers w2 (<[S n := set_lsbs (to_binary
        (data ++ LSBSteganography.delimiter)) buf]> (buffers w2))
    = set_buffers w (buffers w ++
        [buf; set_lsbs (to_binary (data ++ LSBSteganography.delimiter)) buf])).
  { subst w2 w1. rewrite !buffers_set_buffers, !set_buffers_twice. f_equal.
    rewrite <- app_assoc. cbn [app].
    rewrite insert_app_r_alt by (fold n; lia).
    fold n. replace (S n - n)%nat with 1%nat by lia. done. }
  rewrite Hw3.
  erewrite reshape_eval; cycle 1.
  { rewrite buffers_set_buffers. cbn [base].
    rewrite lookup_app_r by (fold n; lia). fold n.
    replace (S n - n)%nat with 1%nat by lia. reflexivity. }
  rewrite length_set_lsbs. cbn [base]. done.
Qed.

Lemma embed_needs_buffer image secret_data w out w' :
  LSBSteganography.embed image secret_data w = (Ret out, w') →
  ∃ buf, buffers w !! base image = Some buf.
Proof.
  destruct (buffers w !! base image) as [buf|] eqn:E; [eauto |].
  unfold LSBSteganography.embed, np_copy, load, mbind, M_bind.
  by rewrite E.
Qed.

(** C10. When LSB [embed] accepts an image and a payload, the array it
    returns has the shape of the input, each of its samples agrees with
    the input sample on the upper seven bits, and no buffer that existed
    before the call, the caller's array among them, has been written:
    the result lives in a buffer allocated by the call. *)
Theorem lsb_embed_frame image secret_data w out w' :
  LSBSteganography.embed image secret_data w = (Ret out, w') →
  shape out = shape image
  ∧ (∃ src dst,
       buffers w !! base image = Some src
       ∧ buffers w' !! base out = Some dst
       ∧ length dst = length src
       ∧ ∀ i x y, src !! i = Some x → dst !! i = Some y →
                  Z.land y 0xFE = Z.land x 0xFE)
  ∧ (length (buffers w) ≤ base out)%nat
  ∧ (∀ l, (l < length (buffers w))%nat → buffers w' !! l = buffers w !! l)
  ∧ buffers w' !! base image = buffers w !! base image.
Proof.
  intros Hembed.
  destruct (embed_needs_buffer _ _ _ _ _ Hembed) as [buf Hbuf].
  rewrite (embed_eval _ _ _ _ Hbuf) in Hembed. cbn zeta in Hembed.
  destruct (encode_if_str secret_data) as [data|]; [| done].
  destruct (embed_total_capacity (shape image)) as [tc|]; [| done].
  repeat case_decide; try done.
  injection Hembed as <- <-. cbn [shape base]. rewrite buffers_set_buffers.
  assert (Hold : ∀ l, (l < length (buffers w))%nat →
    (buffers w ++ [buf; set_lsbs (to_binary
       (data ++ LSBSteganography.delimiter)) buf]) !! l = buffers w !! l).
  { intros l Hl. by rewrite lookup_app_l. }
  split; [done |]. split; [| split; [lia | split; [done |]]].
  - exists buf, (set_lsbs (to_binary (data ++ LSBSteganography.delimiter)) buf).
    split; [done |]. split.
    { rewrite lookup_app_r by lia.
      by replace (S (length (buffers w)) - length (buffers w))%nat
        with 1%nat by lia. }
    split; [apply length_set_lsbs |].
    intros i x y. apply set_lsbs_upper_bits.
  - apply Hold. by eapply lookup_lt_Some.
Qed.

Lemma lsb_embed_frame_witness :
  ∃ out w',
    LSBSteganography.embed image_4x4x3 (Bytes [65]) flat_200 = (Ret out, w')
    ∧ shape out = [4; 4; 3]
    ∧ buffers w' !! 0%nat = Some (replicate 48 200).
Proof.
  eexists _, _. split; [vm_compute; reflexivity |].
  destruct (lsb_embed_frame image_4x4x3 (Bytes [65]) flat_200 _ _
              ltac:(vm_compute; reflexivity))
    as (Hshape & _ & _ & _ & Hsame).
  split; [exact Hshape | exact Hsame].
Defined.

(** [embed] has a capacity test of its own: a payload one byte over the
    LSB capacity is refused before the flattened copy is made, and the
    only effect of the call is the allocation of the first copy. *)
Lemma lsb_embed_rejects_oversized image payload capacity w buf :
  buffers w !! base image = Some buf →
  LSBSteganography.get_capacity image = Ret capacity →
  Z.of_nat (length payload) = capacity + 1 →
  LSBSteganography.embed image (Bytes payload) w
  = (Raise (Exn ValueError
       ("Image too small to hold data. Need "
          +:+ pretty (8 * (capacity + 5))
          +:+ " bits, have " +:+ pretty (prod_shape (shape image)))),
     set_buffers w (buffers w ++ [buf])).
Proof.
  intros Hbuf Hcap Hlen.
  destruct (lsb_capacity_inv _ _ Hcap) as [Htc Hc].
  rewrite (embed_eval _ _ _ _ Hbuf). cbn zeta. cbn [encode_if_str].
  rewrite Htc.
  assert (Hbits :
    Z.of_nat (length (to_binary (payload ++ LSBSteganography.delimiter)))
    = 8 * (capacity + 5)).
  { rewrite length_to_binary, length_app. cbn [length LSBSteganography.delimiter].
    lia. }
  rewrite Hbits. rewrite decide_True; [done |].
  pose proof (Z.mod_pos_bound (prod_shape (shape image) - 32) 8 ltac:(lia)).
  pose proof (Z.div_mod (prod_shape (shape image) - 32) 8 ltac:(lia)).
  lia.
Qed.

(** ** Reading the bits back *)

Lemma byte_at acc b rest tail :
  take 8 (drop (8 * length acc) (to_binary (acc ++ b :: rest) ++ tail))
  = format_08b b.
Proof.
  rewrite to_binary_app, <- app_assoc.
  rewrite drop_app_length' by (by rewrite length_to_binary).
  reflexivity.
Qed.

Lemma read_bits_spec flat_image w buf m : ∀ i,
  buffers w !! base flat_image = Some buf →
  (i + m ≤ length buf)%nat →
  LSBSteganography.read_bits flat_image (seq i m) w
  = (Ret ((λ x, bool_decide (Z.land x 1 = 1)) <$> take m (drop i buf)), w).
Proof.
  induction m as [|m IH]; intros i Hbuf Hlen; [done |].
  cbn [seq LSBSteganography.read_bits].
  destruct (lookup_lt_is_Some_2 buf i ltac:(lia)) as [x Hx].
  assert (Hget : getitem flat_image i w = (Ret x, w)).
  { unfold getitem. erewrite bind_Ret by (by apply load_Ret). by rewrite Hx. }
  erewrite bind_Ret by exact Hget.
  erewrite bind_Ret by (apply IH; [done | lia]).
  rewrite (drop_S _ _ _ Hx). reflexivity.
Qed.

Lemma extract_bytes_eval image max_length w buf :
  buffers w !! base image = Some buf →
  LSBSteganography.extract_bytes image max_length w
  = (Ret (LSBSteganography.collect_bytes (bits_read buf max_length)
            (LSBSteganography.range_step8
               (length (bits_read buf max_length))) []),
     set_buffers w (buffers w ++ [buf; buf])).
Proof.
  intros Hbuf. unfold LSBSteganography.extract_bytes.
  erewrite bind_Ret by (by apply np_copy_Ret).
  set (n := length (buffers w)).
  set (w1 := set_buffers w (buffers w ++ [buf])).
  assert (Hn : buffers w1 !! n = Some buf).
  { subst w1 n. rewrite buffers_set_buffers.
    by rewrite lookup_app_r, Nat.sub_diag by lia. }
  erewrite bind_Ret by (by apply (flatten_Ret (NdArray n _))).
  assert (Hlen1 : length (buffers w1) = S n).
  { subst w1 n. rewrite buffers_set_buffers, length_app. cbn. lia. }
  rewrite Hlen1.
  set (w2 := set_buffers w1 (buffers w1 ++ [buf])).
  assert (Hflat : buffers w2 !! S n = Some buf).
  { subst w2. rewrite buffers_set_buffers.
    by rewrite lookup_app_r, Hlen1, Nat.sub_diag by lia. }
  assert (Hlen : len (NdArray (S n) [Z.of_nat (length buf)]) w2
                 = (Ret (length buf), w2)).
  { unfold len. by erewrite bind_Ret by (by apply load_Ret). }
  erewrite bind_Ret by exact Hlen.
  erewrite bind_Ret; cycle 1.
  { apply (read_bits_spec _ _ buf); [exact Hflat | lia]. }
  rewrite drop_0. fold (bits_read buf max_length).
  unfold mret, M_ret. f_equal.
  subst w2 w1. rewrite buffers_set_buffers, set_buffers_twice.
  by rewrite <- app_assoc.
Qed.

(** On every image backed by a buffer [extract] returns a string,
    whatever the bits are: it has no failure of its own. *)
Lemma lsb_extract_never_raises image max_length w :
  is_Some (buffers w !! base image) →
  ∃ text w', LSBSteganography.extract image max_length w = (Ret text, w').
Proof.
  intros [buf Hbuf]. unfold LSBSteganography.extract.
  erewrite bind_Ret by (by apply extract_bytes_eval).
  eexists _, _. reflexivity.
Qed.

Lemma collect_bytes_no_delimiter bits : ∀ range acc,
  (∀ j, (1 ≤ j)%nat →
     LSBSteganography.ends_with_delimiter
       (acc ++ take j ((λ i, int_base2 (take 8 (drop i bits)))
                         <$> filter (λ i, i + 8 ≤ length bits)%nat range))
     = false) →
  LSBSteganography.collect_bytes bits range acc
  = acc ++ ((λ i, int_base2 (take 8 (drop i bits)))
              <$> filter (λ i, i + 8 ≤ length bits)%nat range).
Proof.
  induction range as [|i range IH]; intros acc Hfree.
  - cbn. by rewrite app_nil_r.
  - cbn [LSBSteganography.collect_bytes]. case_decide as Hi.
    + rewrite filter_cons_True in Hfree |- * by done.
      cbn [fmap list_fmap] in Hfree |- *.
      pose proof (Hfree 1%nat ltac:(lia)) as H1. cbn [take] in H1.
      rewrite take_0 in H1.
      rewrite H1, IH; [by rewrite <- app_assoc |].
      intros j Hj. specialize (Hfree (S j) ltac:(lia)).
      cbn [take] in Hfree. by rewrite <- app_assoc.
    + rewrite filter_cons_False in Hfree |- * by done. by apply IH.
Qed.

(** C5 asks LSB extraction to fail when the delimiter never occurs in
    the bytes read from the image. The code does not: when no prefix of
    the byte stream ends with the delimiter, [extract] returns the
    decoding of the whole stream. *)
Theorem lsb_extract_without_delimiter_returns image max_length w buf :
  buffers w !! base image = Some buf →
  (∀ j, LSBSteganography.ends_with_delimiter
          (take j (byte_stream (bits_read buf max_length))) = false) →
  ∃ w',
    LSBSteganography.extract image max_length w
    = (Ret (decode_ignore (byte_stream (bits_read buf max_length))), w').
Proof.
  intros Hbuf Hfree. unfold LSBSteganography.extract.
  erewrite bind_Ret by (by apply extract_bytes_eval).
  eexists. unfold mret, M_ret. do 3 f_equal.
  rewrite collect_bytes_no_delimiter; [done |].
  intros j _. apply Hfree.
Qed.

Lemma lsb_extract_without_delimiter_returns_witness :
  ∃ w',
    LSBSteganography.extract image_4x4x3
      LSBSteganography.default_max_length flat_201
    = (Ret [], w').
Proof.
  apply (lsb_extract_without_delimiter_returns image_4x4x3
           LSBSteganography.default_max_length flat_201 (replicate 48 201)).
  - reflexivity.
  - intros j. do 7 (destruct j as [|j]; [vm_compute; reflexivity |]).
    vm_compute. reflexivity.
Defined.

(** On the all-odd image the six bytes read are 255 each: no delimiter
    is found, and [extract] returns the empty string (none of the bytes
    decodes) instead of failing. *)
Lemma lsb_extract_without_delimiter :
  ∃ w',
    LSBSteganography.extract_bytes image_4x4x3
      LSBSteganography.default_max_length flat_201
    = (Ret [255; 255; 255; 255; 255; 255], w')
    ∧ LSBSteganography.extract image_4x4x3
        LSBSteganography.default_max_length flat_201
      = (Ret [], w').
Proof.
  eexists. split; vm_compute; reflexivity.
Qed.

(** ** Finding the delimiter *)

Lemma ends_with_delimiter_delimited payload :
  LSBSteganography.ends_with_delimiter (payload ++ LSBSteganography.delimiter)
  = true.
Proof.
  unfold LSBSteganography.ends_with_delimiter.
  rewrite length_app. cbn [length LSBSteganography.delimiter].
  rewrite bool_decide_eq_true_2 by lia. cbn [andb].
  apply bool_decide_eq_true_2.
  replace (length payload + 4 - 4)%nat with (length payload) by lia.
  apply drop_app_length.
Qed.

Lemma delimiter_free_prefix payload j :
  delimiter_free payload = true →
  (j < length payload + 4)%nat →
  LSBSteganography.ends_with_delimiter
    (take j (payload ++ LSBSteganography.delimiter)) = false.
Proof.
  unfold delimiter_free. rewrite forallb_forall. intros Hfree Hj.
  apply negb_true_iff, Hfree, in_seq. lia.
Qed.

Lemma collect_bytes_delimited tail : ∀ rest acc m,
  Forall is_byte rest →
  rest ≠ [] →
  (length rest ≤ m)%nat →
  (∀ j, (length acc < j < length (acc ++ rest))%nat →
        LSBSteganography.ends_with_delimiter (take j (acc ++ rest)) = false) →
  LSBSteganography.ends_with_delimiter (acc ++ rest) = true →
  LSBSteganography.collect_bytes (to_binary (acc ++ rest) ++ tail)
    ((λ k, 8 * k)%nat <$> seq (length acc) m) acc
  = take (length (acc ++ rest) - 4) (acc ++ rest).
Proof.
  induction rest as [|b rest IH]; intros acc m Hbytes Hne Hm Hfree Hend;
    [done |].
  destruct m as [|m]; [cbn in Hm; lia |].
  cbn [seq fmap list_fmap LSBSteganography.collect_bytes].
  rewrite decide_True; cycle 1.
  { rewrite length_app, length_to_binary, length_app. cbn [length]. lia. }
  rewrite byte_at, int_base2_format_08b by (by inversion Hbytes).
  assert (Hfull : (acc ++ [b]) ++ rest = acc ++ b :: rest)
    by (by rewrite <- app_assoc).
  destruct (LSBSteganography.ends_with_delimiter (acc ++ [b])) eqn:Hhere.
  - destruct rest as [|b' rest].
    + reflexivity.
    + exfalso. specialize (Hfree (S (length acc))).
      rewrite <- Hfull, take_app_length' in Hfree
        by (rewrite length_app; cbn; lia).
      rewrite Hfree in Hhere; [done |].
      rewrite !length_app. cbn. lia.
  - assert (Hrest : rest ≠ []).
    { intros ->. by rewrite Hhere in Hend. }
    specialize (IH (acc ++ [b]) m).
    rewrite Hfull in IH.
    replace (length (acc ++ [b])) with (S (length acc)) in IH
      by (rewrite length_app; cbn; lia).
    apply IH; [by inversion Hbytes | done | cbn in Hm; lia | | done].
    intros j Hj. apply Hfree. lia.
Qed.

Lemma collect_bytes_round_trip payload tail :
  Forall is_byte payload →
  delimiter_free payload = true →
  let bits := to_binary (payload ++ LSBSteganography.delimiter) ++ tail in
  LSBSteganography.collect_bytes bits
    (LSBSteganography.range_step8 (length bits)) []
  = payload.
Proof.
  intros Hbytes Hfree bits.
  pose proof (collect_bytes_delimited tail
    (payload ++ LSBSteganography.delimiter) []
    ((length bits + 7) / 8)) as Hc.
  cbn [app length] in Hc. unfold LSBSteganography.range_step8.
  subst bits. rewrite Hc.
  - rewrite length_app. cbn [length LSBSteganography.delimiter].
    replace (length payload + 4 - 4)%nat with (length payload) by lia.
    apply take_app_length.
  - apply Forall_app. split; [done |].
    repeat constructor; unfold is_byte; lia.
  - by destruct payload.
  - rewrite (length_app (to_binary _)), length_to_binary.
    generalize (length (payload ++ LSBSteganography.delimiter)).
    intros n. apply Nat.div_le_lower_bound; lia.
  - intros j Hj. apply delimiter_free_prefix; [done |].
    rewrite length_app in Hj. cbn in Hj. lia.
  - apply ends_with_delimiter_delimited.
Qed.

Lemma nonzero_delimiter_free payload :
  Forall (λ b, b ≠ 0) payload → delimiter_free payload = true.
Proof.
  intros Hnz. unfold delimiter_free. apply forallb_forall.
  intros j [_ Hj]%in_seq. apply negb_true_iff.
  unfold LSBSteganography.ends_with_delimiter.
  set (full := payload ++ LSBSteganography.delimiter).
  assert (Hlen : length (take j full) = j).
  { rewrite length_take. subst full. rewrite length_app. cbn. lia. }
  rewrite Hlen.
  destruct (decide (4 ≤ j)%nat) as [H4|H4];
    [| by rewrite bool_decide_eq_false_2].
  rewrite bool_decide_eq_true_2 by done. cbn [andb].
  apply bool_decide_eq_false_2. intros Hdrop.
  assert (Hat : drop (j - 4) (take j full) !! 0%nat = Some 0)
    by (by rewrite Hdrop).
  rewrite lookup_drop, Nat.add_0_r, lookup_take_lt in Hat by lia.
  subst full. rewrite lookup_app_l in Hat by lia.
  rewrite Forall_lookup in Hnz. by apply (Hnz _ _ Hat).
Qed.

(** ** Round trip through LSB embedding *)

Lemma bits_read_after_embed bits buf max_length :
  (length bits ≤ length buf)%nat →
  Z.of_nat (length bits) ≤ max_length * 8 →
  ∃ tail, bits_read (set_lsbs bits buf) max_length = bits ++ tail.
Proof.
  intros Hbuf Hmax. unfold bits_read.
  rewrite fmap_take, set_lsbs_read, take_app, length_set_lsbs by done.
  rewrite take_ge by lia. eauto.
Qed.

Lemma lsb_round_trip_bytes image payload max_length capacity w :
  valid_image w image →
  LSBSteganography.get_capacity image = Ret capacity →
  Forall is_byte payload →
  delimiter_free payload = true →
  Z.of_nat (length payload) ≤ capacity →
  32 ≤ prod_shape (shape image) →
  Z.of_nat (length payload) + 4 ≤ max_length →
  ∃ stego w1 w2,
    LSBSteganography.embed image (Bytes payload) w = (Ret stego, w1)
    ∧ LSBSteganography.extract_bytes stego max_length w1 = (Ret payload, w2)
    ∧ LSBSteganography.extract stego max_length w1
      = (Ret (decode_ignore payload), w2).
Proof.
  intros (buf & Hbuf & Hsize) Hcap Hbytes Hfree Hfit Hmin Hmax.
  destruct (lsb_capacity_inv _ _ Hcap) as [Htc ->].
  set (bits := to_binary (payload ++ LSBSteganography.delimiter)).
  assert (Hbits : length bits = (8 * (length payload + 4))%nat).
  { subst bits. rewrite length_to_binary, length_app. reflexivity. }
  assert (Hroom : Z.of_nat (length bits) ≤ prod_shape (shape image)).
  { pose proof (Z.mul_div_le (prod_shape (shape image) - 32) 8). lia. }
  pose proof (embed_eval image (Bytes payload) w buf Hbuf) as Hembed.
  cbn zeta in Hembed. cbn [encode_if_str] in Hembed.
  rewrite Htc in Hembed. fold bits in Hembed.
  rewrite decide_False, decide_True in Hembed by lia.
  eexists _, _, _. split; [exact Hembed |].
  assert (Hstego :
    buffers (set_buffers w (buffers w ++ [buf; set_lsbs bits buf]))
      !! S (length (buffers w)) = Some (set_lsbs bits buf)).
  { rewrite buffers_set_buffers, lookup_app_r by lia.
    by replace (S (length (buffers w)) - length (buffers w))%nat
      with 1%nat by lia. }
  pose proof (extract_bytes_eval
    (NdArray (S (length (buffers w))) (shape image)) max_length _ _ Hstego)
    as Hextract.
  destruct (bits_read_after_embed bits buf max_length) as [tail Htail];
    [lia | lia |].
  rewrite Htail in Hextract. subst bits.
  rewrite collect_bytes_round_trip in Hextract by done.
  split; [exact Hextract |].
  unfold LSBSteganography.extract.
  erewrite bind_Ret by exact Hextract. reflexivity.
Qed.

(** C1, amended. For the LSB algorithm, an image of at least 32 samples
    and a payload of bytes that fits the capacity, is free of the
    delimiter (it does not end in a zero byte and holds no four
    consecutive zero bytes) and, with the delimiter, stays within the
    [max_length] given to [extract]: the bytes that [extract] recovers
    from the embedded image are exactly the payload, and what it returns
    is their UTF-8 decoding with undecodable bytes dropped. *)
Theorem lsb_round_trip image payload max_length capacity w :
  valid_image w image →
  LSBSteganography.get_capacity image = Ret capacity →
  Forall is_byte payload →
  delimiter_free payload = true →
  Z.of_nat (length payload) ≤ capacity →
  32 ≤ prod_shape (shape image) →
  Z.of_nat (length payload) + 4 ≤ max_length →
  ∃ stego w1 w2,
    LSBSteganography.embed image (Bytes payload) w = (Ret stego, w1)
    ∧ LSBSteganography.extract_bytes stego max_length w1 = (Ret payload, w2)
    ∧ LSBSteganography.extract stego max_length w1
      = (Ret (decode_ignore payload), w2).
Proof. apply lsb_round_trip_bytes. Qed.

Lemma lsb_round_trip_witness :
  ∃ stego w1 w2,
    LSBSteganography.embed image_4x4x3 (Bytes [72; 105]) flat_200
      = (Ret stego, w1)
    ∧ LSBSteganography.extract_bytes stego 10000 w1 = (Ret [72; 105], w2)
    ∧ LSBSteganography.extract stego 10000 w1
      = (Ret (decode_ignore [72; 105]), w2).
Proof.
  apply (lsb_round_trip image_4x4x3 [72; 105] 10000 2 flat_200).
  - exists (replicate 48 200). split; reflexivity.
  - reflexivity.
  - repeat constructor; unfold is_byte; lia.
  - reflexivity.
  - cbn. lia.
  - vm_compute. discriminate.
  - cbn. lia.
Defined.

(** C1, as stated, fails for a payload that ends in a zero byte: the
    two bytes [65; 0] fit the capacity of the image, yet extraction
    from the embedded image recovers the single byte [65]. *)
Lemma lsb_round_trip_fails_on_zero_byte :
  LSBSteganography.get_capacity image_4x4x3 = Ret 2
  ∧ ∃ stego w1 w2,
      LSBSteganography.embed image_4x4x3 (Bytes [65; 0]) flat_200
        = (Ret stego, w1)
      ∧ LSBSteganography.extract_bytes stego
          LSBSteganography.default_max_length w1 = (Ret [65], w2)
      ∧ LSBSteganography.extract stego
          LSBSteganography.default_max_length w1 = (Ret [65], w2)
      ∧ [65] ≠ [65; 0].
Proof.
  split; [reflexivity |].
  eexists _, _, _.
  split; [vm_compute; reflexivity |].
  split; [vm_compute; reflexivity |].
  split; [vm_compute; reflexivity | discriminate].
Qed.

(** A text message without NUL characters round-trips as text: its
    UTF-8 bytes are free of the delimiter, and decoding them gives the
    message back. *)
Lemma lsb_round_trip_text image text data max_length capacity w :
  valid_image w image →
  LSBSteganography.get_capacity image = Ret capacity →
  Forall is_scalar_value text →
  Forall (λ c, c ≠ 0) text →
  utf8_encode text = Ret data →
  Z.of_nat (length data) ≤ capacity →
  32 ≤ prod_shape (shape image) →
  Z.of_nat (length data) + 4 ≤ max_length →
  ∃ stego w1 w2,
    LSBSteganography.embed image (Str text) w = (Ret stego, w1)
    ∧ LSBSteganography.extract stego max_length w1 = (Ret text, w2).
Proof.
  intros Hvalid Hcap Hscalar Hnz Hdata Hfit Hmin Hmax.
  pose proof (utf8_encode_bytes text data Hscalar Hnz Hdata) as Hbytes.
  destruct (lsb_round_trip_bytes image data max_length capacity w)
    as (stego & w1 & w2 & Hembed & _ & Hextract); try done.
  - eapply List.Forall_impl; [| exact Hbytes]. by intros b [? _].
  - apply nonzero_delimiter_free.
    eapply List.Forall_impl; [| exact Hbytes]. by intros b [_ ?].
  - exists stego, w1, w2. split.
    + destruct Hvalid as (buf & Hbuf & _).
      rewrite (embed_eval _ _ _ _ Hbuf) in Hembed.
      rewrite (embed_eval _ _ _ _ Hbuf).
      cbn [encode_if_str] in Hembed |- *. by rewrite Hdata.
    + by rewrite (decode_ignore_encoded text data Hscalar Hdata) in Hextract.
Qed.

(** The message "HELLO" in any 300x300 RGB image: five bytes out of a
    capacity of 33746, recovered as they were. *)
Example hello_round_trip image w :
  valid_image w image →
  shape image = [300; 300; 3] →
  ∃ stego w1 w2,
    LSBSteganography.embed image (Str [72; 69; 76; 76; 79]) w
      = (Ret stego, w1)
    ∧ LSBSteganography.extract stego LSBSteganography.default_max_length w1
      = (Ret [72; 69; 76; 76; 79], w2).
Proof.
  intros Hvalid Hshape.
  apply (lsb_round_trip_text image _ [72; 69; 76; 76; 79] _ 33746);
    try done.
  - unfold LSBSteganography.get_capacity. by rewrite Hshape.
  - repeat constructor; unfold is_scalar_value; lia.
  - repeat constructor; lia.
  - rewrite Hshape. cbn. lia.
Qed.

(** ** The frame header *)

Lemma parse_header_eval data :
  match data with
  | flags :: method_id :: _ =>
      SteganographyEngine._parse_header (Bytes data)
      = Ret (HeaderInfo (negb (Z.land flags 1 =? 0))
               (negb (Z.land flags 2 =? 0))
               (if decide (method_id = 1) then "ChaCha20"
                else if decide (method_id = 2) then "Fernet"
                else "AES-256")
               2)
  | _ =>
      SteganographyEngine._parse_header (Bytes data)
      = Raise (Exn ValueError "Invalid data format")
  end.
Proof.
  destruct data as [|flags [|method_id body]]; try reflexivity.
  unfold SteganographyEngine._parse_header.
  rewrite decide_False by (cbn [length]; lia).
  cbn [lookup list_lookup default].
  repeat case_decide; unfold id in *; try reflexivity; lia.
Qed.

(** C6, amended. [_parse_header] fails with "Invalid data format" when
    fewer than two bytes are present. Otherwise it succeeds, with a
    header of size 2 whose flags are bits 0 and 1 of the first byte; the
    cipher identifiers 1 and 2 name ChaCha20 and Fernet, and every other
    identifier, recognized or not, names AES-256. *)
Theorem parse_header_total data :
  match data with
  | flags :: method_id :: _ =>
      SteganographyEngine._parse_header (Bytes data)
      = Ret (HeaderInfo (negb (Z.land flags 1 =? 0))
               (negb (Z.land flags 2 =? 0))
               (if decide (method_id = 1) then "ChaCha20"
                else if decide (method_id = 2) then "Fernet"
                else "AES-256")
               2)
  | _ =>
      SteganographyEngine._parse_header (Bytes data)
      = Raise (Exn ValueError "Invalid data format")
  end.
Proof. apply parse_header_eval. Qed.

(** C6, as stated, fails: the cipher identifier 7 is not recognized,
    yet the header parses, as AES-256. *)
Lemma parse_header_defaults_unknown_cipher :
  SteganographyEngine._parse_header (Bytes [0; 7])
  = Ret (HeaderInfo false false "AES-256" 2).
Proof. reflexivity. Qed.

(** ** Decoding a frame *)

Section decoding.
Context `{Libraries}.

(** On a [bytes] frame, the type the signature of
    [_process_extracted_data] declares, the guard [encrypted and
    password] skips the decryption when the password is empty: the body
    after the two header bytes is decompressed when the compressed flag
    is set, and decoded. *)
Lemma process_bytes_without_password flags method_id body :
  Z.land flags 1 ≠ 0 →
  SteganographyEngine._process_extracted_data
    (Bytes (flags :: method_id :: body)) []
  = (message_data ←
       (if Z.land flags 2 =? 0 then Ret body else zlib_decompress body);
     decode_strict message_data).
Proof.
  intros Hflag. unfold SteganographyEngine._process_extracted_data.
  pose proof (parse_header_eval (flags :: method_id :: body)) as Hparse.
  cbn beta iota in Hparse. rewrite Hparse.
  cbn [mbind outcome_bind encrypted compressed header_size drop].
  rewrite bool_decide_eq_false_2 by (by intros ?).
  rewrite andb_false_r. cbn [mbind outcome_bind].
  by destruct (Z.land flags 2 =? 0).
Qed.

(** What a decode task does with an extracted text of at least two
    characters, whatever the password: the header test [flags & 1] is
    applied to a character, and the [TypeError] it raises is not caught
    by the [except ValueError] of the task. *)
Lemma decode_task_str_raises image password algorithm a c0 c1 text w w1 :
  SteganographyEngine.algorithms algorithm = Some a →
  SteganographyEngine.extract a image w = (Ret (c0 :: c1 :: text), w1) →
  SteganographyEngine.decode_task (Some image) password algorithm w
  = (Raise (Exn TypeError
              "unsupported operand type(s) for &: 'str' and 'int'"), w1).
Proof.
  intros Halg Hextract.
  unfold SteganographyEngine.decode_task, SteganographyEngine.catch_ValueError.
  erewrite bind_Ret by reflexivity.
  rewrite Halg. erewrite bind_Ret by reflexivity.
  erewrite bind_Ret by exact Hextract.
  reflexivity.
Qed.

(** C4 fails. A decode request whose extracted frame has the encrypted
    flag set, made with an empty password, is not answered with a
    decryption failure. The text that [extract] returned reaches the
    header parser, whose [flags & 1] raises a [TypeError] that leaves
    the task uncaught. And [_process_extracted_data] has no check for a
    missing password: given the same frame as the [bytes] its signature
    declares, it skips the decryption and returns the body, decompressed
    when the compressed flag is set, as the decoded message. *)
Theorem decode_encrypted_without_password image algorithm a flags method_id
    body w w1 :
  SteganographyEngine.algorithms algorithm = Some a →
  SteganographyEngine.extract a image w
    = (Ret (flags :: method_id :: body), w1) →
  Z.land flags 1 ≠ 0 →
  SteganographyEngine.decode_task (Some image) [] algorithm w
  = (Raise (Exn TypeError
              "unsupported operand type(s) for &: 'str' and 'int'"), w1)
  ∧ SteganographyEngine._process_extracted_data
      (Bytes (flags :: method_id :: body)) []
    = (message_data ←
         (if Z.land flags 2 =? 0 then Ret body else zlib_decompress body);
       decode_strict message_data).
Proof.
  intros Halg Hextract Hflag. split.
  - by eapply decode_task_str_raises.
  - by apply process_bytes_without_password.
Qed.

Lemma process_str_raises text password :
  ∃ e, SteganographyEngine._process_extracted_data (Str text) password
       = Raise e.
Proof.
  unfold SteganographyEngine._process_extracted_data,
    SteganographyEngine._parse_header.
  case_decide; eexists; reflexivity.
Qed.

(** Every [extract] hands the engine a string, on which the header
    cannot be parsed: a decode task never reports a message. *)
Lemma decode_task_never_succeeds image password algorithm w r w' :
  SteganographyEngine.decode_task image password algorithm w = (Ret r, w') →
  ∃ error, r = DecodeFailure error.
Proof.
  unfold SteganographyEngine.decode_task, SteganographyEngine.catch_ValueError.
  match goal with |- context [?body w] =>
    destruct (body w) as [[res|e] w1] eqn:Hbody end.
  - exfalso.
    apply bind_Ret_inv in Hbody as (img & w2 & _ & Hbody).
    apply bind_Ret_inv in Hbody as (a & w3 & _ & Hbody).
    apply bind_Ret_inv in Hbody as (text & w4 & _ & Hbody).
    apply bind_Ret_inv in Hbody as (msg & w5 & Hproc & _).
    apply lift_inv in Hproc as [Hproc _].
    destruct (process_str_raises text password) as [e He]. congruence.
  - destruct (isinstance_ValueError e); intros [= <- <-]. eauto.
Qed.

End decoding.

(** The frame [1; 0; 'H'; 'i'], whose encrypted flag is set, embedded
    with LSB and decoded with an empty password: the task raises the
    [TypeError]; on the frame as bytes the function returns "Hi". *)
Lemma decode_encrypted_without_password_witness :
  ∃ stego w1 w2,
    LSBSteganography.embed image_4x6x3 (Bytes [1; 0; 72; 105]) flat_4x6x3
      = (Ret stego, w1)
    ∧ SteganographyEngine.decode_task (H := identity_libraries)
        (Some stego) [] "LSB" w1
      = (Raise (Exn TypeError
                  "unsupported operand type(s) for &: 'str' and 'int'"), w2)
    ∧ SteganographyEngine._process_extracted_data (H := identity_libraries)
        (Bytes [1; 0; 72; 105]) []
      = Ret [72; 105].
Proof.
  eexists _, _, _. split; [vm_compute; reflexivity |].
  apply (decode_encrypted_without_password (H := identity_libraries)
           _ "LSB" LSB 1 0 [72; 105]).
  - reflexivity.
  - vm_compute. reflexivity.
  - vm_compute. discriminate.
Defined.

(** ** Encryption *)

Section encryption.
Context `{Libraries}.

Lemma length_os_urandom n w :
  ∃ r w', os_urandom n w = (Ret r, w') ∧ length r = n.
Proof.
  eexists _, _. split; [reflexivity |].
  by rewrite length_fmap, length_seq.
Qed.

(** C2 fails for ChaCha20: the key stream is never applied, because the
    twelve-byte nonce the manager draws is refused by the cipher
    constructor. Encryption raises a [ValueError] on every input. *)
Theorem chacha20_encrypt_raises data password w :
  ∃ e w',
    EncryptionManager.encrypt data password "ChaCha20" w = (Raise e, w')
    ∧ isinstance_ValueError e = true.
Proof.
  unfold EncryptionManager.encrypt. rewrite decide_False by done.
  rewrite decide_True by done. unfold EncryptionManager._encrypt_chacha20.
  destruct (length_os_urandom 16 w) as (salt & w1 & Hsalt & _).
  erewrite bind_Ret by exact Hsalt.
  destruct (length_os_urandom 12 w1) as (nonce & w2 & Hnonce & Hlen).
  erewrite bind_Ret by exact Hnonce.
  unfold EncryptionManager._derive_key.
  destruct (utf8_encode password) as [pw|e] eqn:Hpw.
  - erewrite bind_Ret by reflexivity.
    unfold EncryptionManager.ChaCha20.
    case_decide; [rewrite decide_False by lia |];
      eexists _, _; split; reflexivity.
  - exists e, w2. split; [reflexivity |].
    clear -Hpw. revert e Hpw.
    induction password as [|c s IH]; intros e; [done |].
    cbn [utf8_encode]. unfold utf8_encode_char.
    repeat case_match; cbn [mbind outcome_bind]; try done.
    + destruct (utf8_encode s); [done | intros [= <-]; by apply IH ].
    + destruct (utf8_encode s); [done | intros [= <-]; by apply IH ].
    + by intros [= <-].
    + destruct (utf8_encode s); [done | intros [= <-]; by apply IH ].
    + destruct (utf8_encode s); [done | intros [= <-]; by apply IH ].
Qed.

End encryption.

(** The two suites whose primitives accept what the manager passes do
    round-trip: the salt and the IV are read back from the prefix of the
    blob, and the padding added before AES is removed after it. *)

Section round_trips.
Context `{LibrariesLaws}.





End round_trips.

#[export] Instance identity_libraries_laws :
  @LibrariesLaws identity_libraries.
Proof.
  split.
  - intros pw salt. reflexivity.
  - intros key iv data _ _ _. by exists data.
  - intros key data now iv _ _. by exists data.
Qed.

(** ** Computations that do not touch the arrays *)

Lemma keeps_mret {A} (a : A) : keeps_buffers (mret a : M A).
Proof. by intros w r w' [= <- <-]. Qed.

Lemma keeps_raise {A} e : keeps_buffers (raise e : M A).
Proof. by intros w r w' [= <- <-]. Qed.

Lemma keeps_lift {A} (o : outcome A) : keeps_buffers (lift o).
Proof. by intros w r w' [= <- <-]. Qed.

Lemma keeps_urandom n : keeps_buffers (os_urandom n).
Proof. by intros w r w' [= <- <-]. Qed.

Lemma keeps_bind {A B} (m : M A) (k : A → M B) :
  keeps_buffers m → (∀ a, keeps_buffers (k a)) → keeps_buffers (m ≫= k).
Proof.
  intros Hm Hk w r w' [(a & w1 & H1 & H2)|(e & H1 & _)]%bind_inv.
  - rewrite (Hk _ _ _ _ H2). by eapply Hm.
  - by eapply Hm.
Qed.

Create HintDb keeps.
#[export] Hint Resolve keeps_mret keeps_raise keeps_lift keeps_urandom : keeps.

Ltac keeps :=
  repeat first
    [ progress auto with keeps
    | apply keeps_bind; [| intros ?]
    | case_decide
    | match goal with |- keeps_buffers (let '(_, _) := ?p in _) =>
        destruct p end ].

Section engine_facts.
Context `{Libraries}.

Lemma keeps_encrypt data password method :
  keeps_buffers (EncryptionManager.encrypt data password method).
Proof.
  unfold EncryptionManager.encrypt, EncryptionManager._encrypt_aes,
    EncryptionManager._encrypt_chacha20, EncryptionManager._encrypt_fernet.
  keeps.
Qed.

Lemma keeps_prepare_message message password method level :
  keeps_buffers
    (SteganographyEngine._prepare_message message password method level).
Proof.
  unfold SteganographyEngine._prepare_message.
  pose proof keeps_encrypt. keeps.
Qed.

End engine_facts.

(** ** The capacity check of the engine *)

Section capacity_check.
Context `{Libraries}.

Lemma encode_task_too_large image message password algorithm
    encryption_method compression_level a capacity payload w w1 :
  SteganographyEngine._prepare_message message password encryption_method
    compression_level w = (Ret payload, w1) →
  SteganographyEngine.algorithms algorithm = Some a →
  SteganographyEngine.get_capacity a image = Ret capacity →
  Z.of_nat (length payload) > capacity →
  SteganographyEngine.encode_task (Some image) message password algorithm
    encryption_method compression_level w
  = (Ret (EncodeFailure
            ("Message too large. Max capacity: " +:+ pretty capacity
               +:+ " bytes")), w1).
Proof.
  intros Hprep Halg Hcap Hlen.
  unfold SteganographyEngine.encode_task, SteganographyEngine.catch_ValueError.
  erewrite bind_Ret by reflexivity.
  erewrite bind_Ret by exact Hprep.
  rewrite Halg. erewrite bind_Ret by reflexivity.
  rewrite Hcap. erewrite bind_Ret by reflexivity.
  rewrite decide_True by done. reflexivity.
Qed.

(** C3. When the prepared payload is exactly one byte longer than the
    capacity the chosen algorithm reports for the carrier, the encode
    task returns the failure "Message too large" and no array buffer,
    the carrier's in particular, differs from what it was before the
    task. *)
Theorem capacity_exceeded_before_embedding image message password algorithm
    encryption_method compression_level a capacity payload w w1 :
  SteganographyEngine._prepare_message message password encryption_method
    compression_level w = (Ret payload, w1) →
  SteganographyEngine.algorithms algorithm = Some a →
  SteganographyEngine.get_capacity a image = Ret capacity →
  Z.of_nat (length payload) = capacity + 1 →
  SteganographyEngine.encode_task (Some image) message password algorithm
    encryption_method compression_level w
  = (Ret (EncodeFailure
            ("Message too large. Max capacity: " +:+ pretty capacity
               +:+ " bytes")), w1)
  ∧ buffers w1 = buffers w.
Proof.
  intros Hprep Halg Hcap Hlen. split.
  - eapply encode_task_too_large; eauto. lia.
  - by eapply keeps_prepare_message.
Qed.

(** C8, amended. The DCT capacity is one bit per 8x8 block, in bytes:
    the floor of [(H div 8) * (W div 8) * C / 8]. For a 64x64
    single-channel array that is 8 bytes. An image file reaches the
    engine as an RGB array, for which a 64x64 image has a capacity of 24
    bytes, and encoding a 65-byte payload into it fails with "Message
    too large". The floor of [H * W / 64] is the figure of the two
    estimates [QualityAnalyzer.calculate_capacity] and
    [ImageProcessor.get_image_capacity], which the engine does not
    consult. *)
Theorem dct_capacity_blocks (b : loc) (h w c : Z) message password
    encryption_method compression_level payload w0 w1 :
  SteganographyEngine._prepare_message message password encryption_method
    compression_level w0 = (Ret payload, w1) →
  length payload = 65%nat →
  DCTSteganography.get_capacity (NdArray b [h; w; c])
    = Ret (Z.max 0 ((h / 8) * (w / 8) * c / 8))
  ∧ DCTSteganography.get_capacity (NdArray b [h; w])
    = Ret (Z.max 0 ((h / 8) * (w / 8) / 8))
  ∧ DCTSteganography.get_capacity (NdArray b [64; 64]) = Ret 8
  ∧ DCTSteganography.get_capacity (NdArray b [64; 64; 3]) = Ret 24
  ∧ SteganographyEngine.encode_task (Some (NdArray b [64; 64; 3])) message
      password "DCT" encryption_method compression_level w0
    = (Ret (EncodeFailure "Message too large. Max capacity: 24 bytes"), w1)
  ∧ QualityAnalyzer.calculate_capacity [h; w; c] "DCT" = Ret (h * w / 64)
  ∧ ImageProcessor.get_image_capacity (Some (NdArray b [h; w; c])) "DCT"
    = h * w / 64.
Proof.
  intros Hprep Hlen.
  destruct (dct_capacity_formula b h w c) as [-> ->].
  repeat split.
  eapply (encode_task_too_large _ _ _ _ _ _ DCT 24); eauto.
  rewrite Hlen. lia.
Qed.

End capacity_check.

Lemma capacity_exceeded_before_embedding_witness :
  LSBSteganography.get_capacity image_4x4x3 = Ret 2
  ∧ SteganographyEngine.encode_task (H := identity_libraries)
      (Some image_4x4x3) [65] [] "LSB" "AES-256" 0 flat_200
    = (Ret (EncodeFailure "Message too large. Max capacity: 2 bytes"),
       flat_200)
  ∧ buffers flat_200 = [replicate 48 200].
Proof.
  split; [reflexivity |].
  apply (capacity_exceeded_before_embedding (H := identity_libraries)
           image_4x4x3 [65] [] "LSB" "AES-256" 0 LSB 2 [0; 0; 65]
           flat_200 flat_200);
    vm_compute; reflexivity.
Defined.

Lemma dct_capacity_blocks_witness :
  DCTSteganography.get_capacity (NdArray 0%nat [64; 64; 3]) = Ret 24
  ∧ SteganographyEngine.encode_task (H := identity_libraries)
      (Some (NdArray 0%nat [64; 64; 3])) (replicate 63 65) [] "DCT" "AES-256"
      0 flat_200
    = (Ret (EncodeFailure "Message too large. Max capacity: 24 bytes"),
       flat_200).
Proof.
  destruct (dct_capacity_blocks (H := identity_libraries) 0%nat 64 64 3
              (replicate 63 65) [] "AES-256" 0
              ([0; 0] ++ replicate 63 65) flat_200 flat_200
              ltac:(vm_compute; reflexivity) ltac:(vm_compute; reflexivity))
    as (_ & _ & _ & Hcap & Hfail & _).
  split; [exact Hcap | exact Hfail].
Defined.

(** Through the engine neither the DCT nor the DWT algorithm embeds
    anything: the payload the engine passes is a [bytes] object that
    starts with the two header bytes, and both bit conversions raise on
    its first byte. *)
Lemma dct_dwt_embed_raise `{Libraries} a image b payload w :
  a = DCT ∨ a = DWT →
  ∃ e, SteganographyEngine.embed a image (b :: payload) w = (Raise e, w).
Proof.
  intros [-> | ->]; cbn [SteganographyEngine.embed].
  - eexists. reflexivity.
  - unfold load, mbind, M_bind, lift.
    destruct (buffers w !! base image); [| eexists; reflexivity].
    destruct (pywt_dwt2 _ _); eexists; reflexivity.
Qed.

(** ** Quality metrics *)

Lemma sum_zeros (l : list Z) : Forall (eq 0) l → foldr Z.add 0 l = 0.
Proof. induction 1 as [|x l <- _ IH]; [done |]. cbn. lia. Qed.

Lemma np_mean_zeros (l : list Z) :
  l ≠ [] → Forall (eq 0) l → np_mean l = Some (0 # 1)%Q.
Proof.
  intros Hne Hz. destruct l as [|x l]; [done |].
  unfold np_mean. by rewrite (sum_zeros _ Hz).
Qed.

Lemma zip_with_diag {A B} (f : A → A → B) (l : list A) :
  zip_with f l l = (λ x, f x x) <$> l.
Proof. induction l as [|x l IH]; [done |]. cbn. by rewrite IH. Qed.

Section quality.
Context `{Libraries}.

(** The part of C9 that holds: an image analysed against itself has a
    mean squared error of zero and, with the module's own PSNR, an
    infinite PSNR. *)
Lemma analyze_quality_self image w buf s :
  psnr_func = None →
  buffers w !! base image = Some buf →
  buf ≠ [] →
  ssim_value (shape image) buf buf = Ret s →
  QualityAnalyzer.analyze_quality image image w
  = (Ret (QualityReport float_inf s (Some (0 # 1)%Q) (Some (0 # 1)%Q)), w).
Proof.
  intros Hpsnr Hbuf Hne Hssim. unfold QualityAnalyzer.analyze_quality.
  rewrite decide_False by (by intros ?).
  erewrite !bind_Ret by (by apply load_Ret).
  rewrite Hpsnr, Hssim. erewrite !bind_Ret by reflexivity.
  assert (Hfm : ∀ {A} (f : Z → A) , (f <$> buf) ≠ []) by (by destruct buf).
  unfold calculate_psnr. rewrite !zip_with_diag, <- !list_fmap_compose.
  rewrite !np_mean_zeros; try done; apply Forall_fmap, Forall_forall;
    intros x _; cbn; rewrite ?Z.sub_diag; done.
Qed.

End quality.

Lemma sum_nonneg_zero (l : list Z) :
  Forall (λ x, 0 ≤ x) l → foldr Z.add 0 l = 0 → Forall (eq 0) l.
Proof.
  induction 1 as [|x l Hx Hl IH]; cbn; intros Hsum; [constructor |].
  assert (0 ≤ foldr Z.add 0 l).
  { clear -Hl. induction Hl; cbn; lia. }
  constructor; [lia | apply IH; lia].
Qed.

Lemma wrapped_square_zero d :
  ((d mod 256) * (d mod 256)) mod 256 = 0 ↔ d mod 16 = 0.
Proof.
  rewrite <- (Z.mod_mod_divide d 256 16) by (by exists 16).
  assert (Hr : 0 ≤ d mod 256 < 256) by (apply Z.mod_pos_bound; lia).
  revert Hr. generalize (d mod 256). intros r Hr.
  pose proof (forall_byte
    (λ r, bool_decide ((r * r) mod 256 = 0 ↔ r mod 16 = 0))) as HP.
  specialize (HP ltac:(vm_compute; reflexivity) r Hr).
  by apply bool_decide_eq_true in HP.
Qed.

Lemma np_mean_zero_iff (l : list Z) q :
  np_mean l = Some q → Qeq_bool q 0 = true ↔ foldr Z.add 0 l = 0.
Proof.
  destruct l as [|x l]; [done |]. unfold np_mean. intros [= <-].
  rewrite Qeq_bool_iff, Qred_correct. unfold Qeq. cbn. lia.
Qed.

(** What [calculate_psnr] does instead: it returns infinity exactly when
    every sample difference is a multiple of 16, the differences whose
    square vanishes modulo 256. *)
Lemma calculate_psnr_inf_iff original stego :
  length original = length stego →
  original ≠ [] →
  calculate_psnr original stego = float_inf
  ↔ Forall2 (λ a b, (a - b) mod 16 = 0) original stego.
Proof.
  intros Hlen Hne. unfold calculate_psnr.
  set (sq := (λ d, (d * d) mod 256)
               <$> zip_with (λ a b, (a - b) mod 256) original stego).
  assert (Hsq : Forall (λ x, 0 ≤ x) sq
                ∧ (Forall (eq 0) sq
                   ↔ Forall2 (λ a b, (a - b) mod 16 = 0) original stego)).
  { subst sq. clear Hne. revert stego Hlen.
    induction original as [|a original IH]; intros [|b stego] Hlen;
      try discriminate.
    - split; [constructor | split; constructor].
    - injection Hlen as Hlen. destruct (IH stego Hlen) as [Hpos Hiff].
      cbn [zip_with fmap list_fmap]. split.
      + constructor; [| done]. apply Z.mod_pos_bound. lia.
      + split; intros Hall; inversion Hall; subst; constructor;
          try (by apply wrapped_square_zero);
          try (by apply Hiff).
        symmetry. by apply wrapped_square_zero. }
  destruct Hsq as [Hpos Hiff].
  destruct (np_mean sq) as [q|] eqn:Hmean.
  - pose proof (np_mean_zero_iff sq q Hmean) as Hzero.
    rewrite <- Hiff. destruct (Qeq_bool q 0).
    + split; [intros _ | done].
      apply sum_nonneg_zero; [done | by apply Hzero].
    + split; [done | intros Hall].
      assert (false = true); [| done].
      apply Hzero, sum_zeros, Hall.
  - exfalso. subst sq. destruct original, stego; done.
Qed.

(** C9 fails in [calculate_psnr]: the difference of two uint8 arrays and
    its square wrap modulo 256. A sample 0 against a sample 16 differs by
    240 in uint8, whose square 57600 is 0 modulo 256: the function sees a
    mean squared error of zero and returns infinity, while the mean
    squared error of the two images is 256. *)
Theorem calculate_psnr_wraps :
  calculate_psnr [0] [16] = float_inf
  ∧ np_mean ((λ d, d ^ 2) <$> zip_with Z.sub [0] [16]) = Some (256 # 1)%Q
  ∧ QualityAnalyzer.analyze_quality (H := identity_libraries)
      (NdArray 0%nat [1; 1]) (NdArray 1%nat [1; 1])
      (World [[0]; [16]] (λ _, 0) 0%nat)
    = (Ret (QualityReport float_inf (float_Q 1) (Some (256 # 1)%Q)
              (Some (16 # 1)%Q)),
       World [[0]; [16]] (λ _, 0) 0%nat).
Proof.
  split; [reflexivity | split; reflexivity].
Qed.

(** ** Capacity estimates *)


Section estimates.
Context `{Libraries}.


End estimates.






(** ** The bit conversion of the transform classes *)








(** ** More on encryption *)






Section more_encryption.
Context `{Libraries}.




End more_encryption.


Section more_round_trips.
Context `{LibrariesLaws}.


End more_round_trips.


(** ** Frames *)




Section frames.
Context `{LibrariesLaws} `{!ZlibLaws}.


End frames.

#[export] Instance identity_zlib_laws : @ZlibLaws identity_libraries.
Proof. split. intros data level _. by exists data. Qed.


(** ** More on LSB embedding *)










(** ** What extraction can return *)







